(** * pyowm.utils.measurables: unit conversions over measurement dicts

    A shallow embedding of [pyowm/utils/measurables.py] and the proofs of
    its documented behaviour.

    Python values are embedded as they are at run time: [int] is an
    unbounded integer, [float] is an IEEE 754 binary64 number (the
    executable [spec_float] of the Standard Library, precision 53, maximal
    exponent 1024), [None] is a value of its own.  A [dict] is an object on
    a heap, referred to by its location, holding its items in insertion
    order.  A function either returns or raises. *)

From Stdlib Require Import ZArith QArith Qround Qpower Lia Lqa.
From Stdlib Require Import Floats.SpecFloat.
From Stdlib Require Import Ascii String DecimalString DecimalN DecimalPos.
From stdpp Require Import base list strings.

Local Open Scope Z_scope.

(** ** Binary64 floating point *)

Module Float.

Definition prec : Z := 53.
Definition emax : Z := 1024.

Definition float : Type := spec_float.

Definition add : float -> float -> float := SFadd prec emax.
Definition sub : float -> float -> float := SFsub prec emax.
Definition mul : float -> float -> float := SFmul prec emax.
Definition div : float -> float -> float := SFdiv prec emax.

(** [float(z)] for a Python int: the nearest binary64 number, ties to even;
    an infinity marks a magnitude that no binary64 number can hold. *)
Definition of_Z (z : Z) : float := binary_normalize prec emax z 0 false.

(** The binary64 number nearest to the quotient [n / d] of two positive
    integers, with sign [s]: how a decimal numeral is read. *)
Definition of_ratio (s : bool) (n d : positive) : float :=
  div (S754_finite s n 0) (S754_finite false d 0).

(** A source literal with the digits [n] and [k] digits after the point. *)
Definition literal (n : positive) (k : positive) : float :=
  of_ratio false n (10 ^ k)%positive.

Definition is_finite (f : float) : bool :=
  match f with S754_zero _ | S754_finite _ _ _ => true | _ => false end.

(** The exact value of a number: a rational, an infinity, or no number. *)
Inductive ext : Type :=
  | NaN
  | NegInf
  | Fin (q : Q)
  | PosInf.

Definition magnitude (m : positive) (e : Z) : Q := inject_Z (Z.pos m) * (2 # 1) ^ e.

Definition value (f : float) : ext :=
  match f with
  | S754_zero _ => Fin 0
  | S754_infinity s => if s then NegInf else PosInf
  | S754_nan => NaN
  | S754_finite s m e => Fin (if s then - magnitude m e else magnitude m e)
  end.

(** Comparison of exact values; [None] when one side is not a number. *)
Definition compare (x y : ext) : option comparison :=
  match x, y with
  | NaN, _ | _, NaN => None
  | NegInf, NegInf => Some Eq
  | NegInf, _ => Some Lt
  | _, NegInf => Some Gt
  | PosInf, PosInf => Some Eq
  | PosInf, _ => Some Gt
  | _, PosInf => Some Lt
  | Fin p, Fin q => Some (p ?= q)%Q
  end.

(** Rounding a rational to the nearest integer, ties to the even one. *)
Definition round_half_even (q : Q) : Z :=
  let fl := Qfloor q in
  match (q - inject_Z fl ?= 1 # 2)%Q with
  | Lt => fl
  | Gt => fl + 1
  | Eq => if Z.even fl then fl else fl + 1
  end.

Definition pow10 (k : nat) : positive := Nat.iter k (Pos.mul 10) 1%positive.

(** The number of units of [10^-places] nearest to the magnitude [m * 2^e]. *)
Definition scaled (places : nat) (m : positive) (e : Z) : N :=
  Z.to_N (round_half_even (magnitude m e * inject_Z (Z.pos (pow10 places)))).

Definition hundredths : positive -> Z -> N := scaled 2.

(** The float that stands for the decimal [n / d], with sign [s]. *)
Definition of_decimal (s : bool) (n : N) (d : positive) : float :=
  match n with
  | N0 => S754_zero s
  | Npos p => of_ratio s p d
  end.

(** Rounding to a number of decimal places: the nearest multiple of
    [10^-places] to the exact value, ties to even, read back as a float.
    Infinities, zeros and NaN round to themselves; the sign is kept, also
    on a result of zero. *)
Definition round_places (places : nat) (f : float) : float :=
  match f with
  | S754_finite s m e => of_decimal s (scaled places m e) (pow10 places)
  | _ => f
  end.

Definition round2 : float -> float := round_places 2.

End Float.

Abbreviation float := Float.float.

(** ** Python values and exceptions *)

Inductive pyval : Type :=
  | VNone
  | VInt (z : Z)
  | VFloat (f : float).

Inductive exn : Type :=
  | ValueError (msg : string)
  | TypeError
  | OverflowError
  | ZeroDivisionError
  | KeyError (key : string)
  | AttributeError.

Inductive outcome (A : Type) : Type :=
  | Ret (a : A)
  | Raise (e : exn).

Arguments Ret {A} a.
Arguments Raise {A} e.

Definition bind {A B : Type} (o : outcome A) (k : A -> outcome B) : outcome B :=
  match o with
  | Ret a => k a
  | Raise e => Raise e
  end.

Declare Scope py_scope.
Delimit Scope py_scope with py.
Notation "'let*' x := e 'in' k" := (bind e (fun x => k))
  (at level 10, x name, e at level 100, k at level 200) : py_scope.
Local Open Scope py_scope.

#[global] Instance float_eq_dec : EqDecision spec_float.
Proof. solve_decision. Defined.

#[global] Instance pyval_eq_dec : EqDecision pyval.
Proof. solve_decision. Defined.

#[global] Instance exn_eq_dec : EqDecision exn.
Proof. solve_decision. Defined.

#[global] Instance outcome_eq_dec {A : Type} `{EqDecision A} : EqDecision (outcome A).
Proof. solve_decision. Defined.

(** *** Numbers *)

(** [float(v)] as arithmetic applies it to an operand: an int too large for
    a float raises OverflowError, [None] is no number. *)
Definition as_float (v : pyval) : outcome float :=
  match v with
  | VNone => Raise TypeError
  | VInt z =>
      let f := Float.of_Z z in
      if Float.is_finite f then Ret f else Raise OverflowError
  | VFloat f => Ret f
  end.

Definition num_val (v : pyval) : option Float.ext :=
  match v with
  | VNone => None
  | VInt z => Some (Float.Fin (inject_Z z))
  | VFloat f => Some (Float.value f)
  end.

(** Ordering comparisons are exact, also between an int and a float; they
    are all false on NaN and a TypeError on [None]. *)
Definition py_compare (a b : pyval) : outcome (option comparison) :=
  match num_val a, num_val b with
  | Some x, Some y => Ret (Float.compare x y)
  | _, _ => Raise TypeError
  end.

Definition py_lt (a b : pyval) : outcome bool :=
  let* c := py_compare a b in
  Ret (match c with Some Lt => true | _ => false end).

Definition py_le (a b : pyval) : outcome bool :=
  let* c := py_compare a b in
  Ret (match c with Some Lt | Some Eq => true | _ => false end).

Definition py_ge (a b : pyval) : outcome bool :=
  let* c := py_compare a b in
  Ret (match c with Some Gt | Some Eq => true | _ => false end).

(** [a - b], [a + b], [a * b]: on two ints the exact integer operation,
    otherwise the float operation on the operands converted to float. *)
Definition py_arith (fz : Z -> Z -> Z) (ff : float -> float -> float)
    (a b : pyval) : outcome pyval :=
  match a, b with
  | VNone, _ | _, VNone => Raise TypeError
  | VInt x, VInt y => Ret (VInt (fz x y))
  | _, _ =>
      let* x := as_float a in
      let* y := as_float b in
      Ret (VFloat (ff x y))
  end.

Definition py_sub : pyval -> pyval -> outcome pyval := py_arith Z.sub Float.sub.
Definition py_add : pyval -> pyval -> outcome pyval := py_arith Z.add Float.add.
Definition py_mul : pyval -> pyval -> outcome pyval := py_arith Z.mul Float.mul.

(** [a / b]: true division.  Two ints give the correctly rounded quotient. *)
Definition py_truediv (a b : pyval) : outcome pyval :=
  match a, b with
  | VNone, _ | _, VNone => Raise TypeError
  | VInt x, VInt y =>
      if y =? 0 then Raise ZeroDivisionError
      else
        let q := Float.of_decimal (xorb (x <? 0) (y <? 0))
                   (Z.to_N (Z.abs x)) (Z.to_pos (Z.abs y)) in
        if Float.is_finite q then Ret (VFloat q) else Raise OverflowError
  | _, _ =>
      let* x := as_float a in
      let* y := as_float b in
      match y with
      | S754_zero _ => Raise ZeroDivisionError
      | _ => Ret (VFloat (Float.div x y))
      end
  end.

(** [round(v, ndigits)] for [ndigits >= 0]: a float is rounded to that many
    places (beyond 323 places it is returned as it is), an int is returned
    as it is. *)
Definition py_round (v : pyval) (ndigits : nat) : outcome pyval :=
  match v with
  | VNone => Raise TypeError
  | VInt z => Ret (VInt z)
  | VFloat f =>
      Ret (VFloat (if (323 <? ndigits)%nat then f else Float.round_places ndigits f))
  end.

(** *** Formatting a float and reading it back *)

(** The two digits of [r < 100]. *)
Definition two_digits (r : N) : string :=
  let u := N.to_uint r in
  NilEmpty.string_of_uint (if (r <? 10)%N then Decimal.D0 u else u).

(** [n] hundredths in fixed notation with two digits after the point. *)
Definition fixed2 (s : bool) (n : N) : string :=
  (if s then "-" else "")
  +:+ NilEmpty.string_of_uint (N.to_uint (n / 100))
  +:+ "." +:+ two_digits (n mod 100).

(** ["{0:.2f}".format(f)] for a float [f]. *)
Definition format_float_2f (f : float) : string :=
  match f with
  | S754_nan => "nan"
  | S754_infinity s => if s then "-inf" else "inf"
  | S754_zero s => fixed2 s 0
  | S754_finite s m e => fixed2 s (Float.hundredths m e)
  end.

(** ["{0:.2f}".format(v)]: an int is formatted as the float it converts to. *)
Definition format_2f (v : pyval) : outcome string :=
  match v with
  | VNone => Raise TypeError
  | _ => let* f := as_float v in Ret (format_float_2f f)
  end.

(** The text before the first point, and the text after it if there is one. *)
Fixpoint split_at_dot (s : string) : string * option string :=
  match s with
  | EmptyString => (EmptyString, None)
  | String c r =>
      if Ascii.eqb c "."%char then (EmptyString, Some r)
      else let '(i, f) := split_at_dot r in (String c i, f)
  end.

(** A decimal numeral [digits], [digits.], [.digits] or [digits.digits] as
    a numerator and a power of ten. *)
Definition parse_decimal (s : string) : option (N * positive) :=
  let '(i, f) := split_at_dot s in
  let f := default EmptyString f in
  match NilEmpty.uint_of_string i, NilEmpty.uint_of_string f with
  | Some ui, Some uf =>
      if (String.length i + String.length f =? 0)%nat then None
      else
        let d := Float.pow10 (String.length f) in
        Some ((N.of_uint ui * Npos d + N.of_uint uf)%N, d)
  | _, _ => None
  end.

(** [float(s)] on a signed decimal numeral without exponent, ["inf"] or
    ["nan"]: the nearest float.  Any other text is a ValueError. *)
Definition float_of_string (s : string) : option float :=
  let '(sign, body) :=
    match s with
    | String "-"%char r => (true, r)
    | String "+"%char r => (false, r)
    | _ => (false, s)
    end in
  if String.eqb body "nan" then Some S754_nan
  else if String.eqb body "inf" then Some (S754_infinity sign)
  else
    match parse_decimal body with
    | Some (n, d) => Some (Float.of_decimal sign n d)
    | None => None
    end.

Definition py_float_of_str (s : string) : outcome pyval :=
  match float_of_string s with
  | Some f => Ret (VFloat f)
  | None => Raise (ValueError ("could not convert string to float: " +:+ s))
  end.

(** ** The module's constants *)

(** Temperature conversion constants *)
Definition KELVIN_OFFSET : float := Eval vm_compute in Float.literal 27315 2.
Definition FAHRENHEIT_OFFSET : float := Eval vm_compute in Float.literal 320 1.
Definition FAHRENHEIT_DEGREE_SCALE : float := Eval vm_compute in Float.literal 18 1.

(** Wind speed conversion constants *)
Definition MILES_PER_HOUR_FOR_ONE_METER_PER_SEC : float :=
  Eval vm_compute in Float.literal 223694 5.
Definition KM_PER_HOUR_FOR_ONE_METER_PER_SEC : float :=
  Eval vm_compute in Float.literal 36 1.
Definition KNOTS_FOR_ONE_METER_PER_SEC : float :=
  Eval vm_compute in Float.literal 194384 5.

(** Barometric conversion constants *)
Definition HPA_FOR_ONE_INHG : float := Eval vm_compute in Float.literal 338639 4.

(** Visibility distance conversion constants *)
Definition MILE_FOR_ONE_METER : float := Eval vm_compute in Float.literal 621371 9.
Definition KMS_FOR_ONE_METER : float := Eval vm_compute in Float.literal 1 3.

(** Decimal precision *)
Definition ROUNDED_TO : nat := 2.

(** The name the module is imported under. *)
Definition __name__ : string := "pyowm.utils.measurables".

(** The upper bounds of the Beaufort levels 0 to 11, in meters/second. *)
Definition bf_0_2 : float := Eval vm_compute in Float.literal 2 1.
Definition bf_1_5 : float := Eval vm_compute in Float.literal 15 1.
Definition bf_3_3 : float := Eval vm_compute in Float.literal 33 1.
Definition bf_5_4 : float := Eval vm_compute in Float.literal 54 1.
Definition bf_7_9 : float := Eval vm_compute in Float.literal 79 1.
Definition bf_10_7 : float := Eval vm_compute in Float.literal 107 1.
Definition bf_13_8 : float := Eval vm_compute in Float.literal 138 1.
Definition bf_17_1 : float := Eval vm_compute in Float.literal 171 1.
Definition bf_20_7 : float := Eval vm_compute in Float.literal 207 1.
Definition bf_24_4 : float := Eval vm_compute in Float.literal 244 1.
Definition bf_28_4 : float := Eval vm_compute in Float.literal 284 1.
Definition bf_32_6 : float := Eval vm_compute in Float.literal 326 1.

(** ** Dict objects on the heap *)

(** A dict holds its items in insertion order, one item per key. *)
Definition dict : Type := list (string * pyval).

Definition keys (m : dict) : list string := m.*1.

Fixpoint dict_get (key : string) (m : dict) : option pyval :=
  match m with
  | [] => None
  | (k, v) :: m' => if String.eqb key k then Some v else dict_get key m'
  end.

(** [m[key] = v]: the value of an existing key is replaced where it stands,
    a new key is added at the end. *)
Fixpoint dict_set (key : string) (v : pyval) (m : dict) : dict :=
  match m with
  | [] => [(key, v)]
  | (k, v') :: m' =>
      if String.eqb key k then (k, v) :: m' else (k, v') :: dict_set key v m'
  end.

(** A reference to a dict object is its index on the heap. *)
Definition loc : Type := nat.
Definition heap : Type := list dict.

(** A computation runs on a heap, returns or raises, and leaves a heap. *)
Definition M (A : Type) : Type := heap -> outcome A * heap.

Definition ret {A : Type} (a : A) : M A := fun h => (Ret a, h).

Definition raise {A : Type} (e : exn) : M A := fun h => (Raise e, h).

Definition lift {A : Type} (o : outcome A) : M A := fun h => (o, h).

Definition bindM {A B : Type} (c : M A) (k : A -> M B) : M B :=
  fun h =>
    match c h with
    | (Ret a, h') => k a h'
    | (Raise e, h') => (Raise e, h')
    end.

Notation "'let!' x := e 'in' k" := (bindM e (fun x => k))
  (at level 10, x name, e at level 100, k at level 200) : py_scope.
Notation "e ;; k" := (bindM e (fun _ => k))
  (at level 100, k at level 200, right associativity) : py_scope.

(** [dict()] *)
Definition new_dict : M loc := fun h => (Ret (List.length h), h ++ [[]]).

(** [d.items()], [iter(d)] and [d[key]]; a reference to no dict object has
    none of them. *)
Definition dict_items (d : loc) : M (list (string * pyval)) :=
  fun h =>
    match h !! d with
    | Some m => (Ret m, h)
    | None => (Raise AttributeError, h)
    end.

Definition dict_keys (d : loc) : M (list string) :=
  fun h =>
    match h !! d with
    | Some m => (Ret (keys m), h)
    | None => (Raise TypeError, h)
    end.

Definition dict_getitem (d : loc) (key : string) : M pyval :=
  fun h =>
    match h !! d with
    | Some m =>
        match dict_get key m with
        | Some v => (Ret v, h)
        | None => (Raise (KeyError key), h)
        end
    | None => (Raise TypeError, h)
    end.

(** [d[key] = v] *)
Definition dict_setitem (d : loc) (key : string) (v : pyval) : M unit :=
  fun h =>
    match h !! d with
    | Some m => (Ret tt, <[d := dict_set key v m]> h)
    | None => (Raise TypeError, h)
    end.

(** [for x in l: body(x)] *)
Fixpoint for_each {A : Type} (body : A -> M unit) (l : list A) : M unit :=
  match l with
  | [] => ret tt
  | x :: l' => body x ;; for_each body l'
  end.

(** ** The conversion functions *)

Definition kelvin_to_celsius (kelvintemp : pyval) : outcome pyval :=
  let* negative := py_lt kelvintemp (VInt 0) in
  if negative : bool then
    Raise (ValueError (__name__ +:+ ": negative temperature values not allowed"))
  else
    let* celsiustemp := py_sub kelvintemp (VFloat KELVIN_OFFSET) in
    let* text := format_2f celsiustemp in
    py_float_of_str text.

Definition kelvin_to_fahrenheit (kelvintemp : pyval) : outcome pyval :=
  let* negative := py_lt kelvintemp (VInt 0) in
  if negative : bool then
    Raise (ValueError (__name__ +:+ ": negative temperature values not allowed"))
  else
    let* diff := py_sub kelvintemp (VFloat KELVIN_OFFSET) in
    let* scaled := py_mul diff (VFloat FAHRENHEIT_DEGREE_SCALE) in
    let* fahrenheittemp := py_add scaled (VFloat FAHRENHEIT_OFFSET) in
    let* text := format_2f fahrenheittemp in
    py_float_of_str text.

(** [{key: f(d[key]) for key in d}] *)
Definition dict_comprehension (f : pyval -> outcome pyval) (d : loc) : M loc :=
  let! ks := dict_keys d in
  let! result := new_dict in
  for_each (fun key =>
    let! v := dict_getitem d key in
    let! v' := lift (f v) in
    dict_setitem result key v') ks ;;
  ret result.

Definition kelvin_dict_to (d : loc) (target_temperature_unit : string) : M loc :=
  if String.eqb target_temperature_unit "kelvin" then
    ret d
  else if String.eqb target_temperature_unit "celsius" then
    dict_comprehension kelvin_to_celsius d
  else if String.eqb target_temperature_unit "fahrenheit" then
    dict_comprehension kelvin_to_fahrenheit d
  else
    raise (ValueError
      "Invalid value for target temperature conversion                          unit").

Definition metric_wind_dict_to_imperial (d : loc) : M loc :=
  let! result := new_dict in
  let! items := dict_items d in
  for_each (fun '(key, value) =>
    if negb (String.eqb key "deg") then
      let! x := lift (py_mul value (VFloat MILES_PER_HOUR_FOR_ONE_METER_PER_SEC)) in
      dict_setitem result key x
    else
      dict_setitem result key value) items ;;
  ret result.

Definition metric_wind_dict_to_km_h (d : loc) : M loc :=
  let! result := new_dict in
  let! items := dict_items d in
  for_each (fun '(key, value) =>
    if negb (String.eqb key "deg") then
      let! x := lift (py_mul value (VFloat KM_PER_HOUR_FOR_ONE_METER_PER_SEC)) in
      dict_setitem result key x
    else
      dict_setitem result key value) items ;;
  ret result.

Definition metric_wind_dict_to_knots (d : loc) : M loc :=
  let! result := new_dict in
  let! items := dict_items d in
  for_each (fun '(key, value) =>
    if negb (String.eqb key "deg") then
      let! x := lift (py_mul value (VFloat KNOTS_FOR_ONE_METER_PER_SEC)) in
      dict_setitem result key x
    else
      dict_setitem result key value) items ;;
  ret result.

(** [lo < value <= hi] *)
Definition py_between (lo : float) (value : pyval) (hi : float) : outcome bool :=
  let* above := py_lt (VFloat lo) value in
  if above : bool then py_le value (VFloat hi) else Ret false.

(** The chain of tests in the body of [metric_wind_dict_to_beaufort]. *)
Definition beaufort_level (value : pyval) : outcome Z :=
  let* c := py_le value (VFloat bf_0_2) in if c : bool then Ret 0 else
  let* c := py_between bf_0_2 value bf_1_5 in if c : bool then Ret 1 else
  let* c := py_between bf_1_5 value bf_3_3 in if c : bool then Ret 2 else
  let* c := py_between bf_3_3 value bf_5_4 in if c : bool then Ret 3 else
  let* c := py_between bf_5_4 value bf_7_9 in if c : bool then Ret 4 else
  let* c := py_between bf_7_9 value bf_10_7 in if c : bool then Ret 5 else
  let* c := py_between bf_10_7 value bf_13_8 in if c : bool then Ret 6 else
  let* c := py_between bf_13_8 value bf_17_1 in if c : bool then Ret 7 else
  let* c := py_between bf_17_1 value bf_20_7 in if c : bool then Ret 8 else
  let* c := py_between bf_20_7 value bf_24_4 in if c : bool then Ret 9 else
  let* c := py_between bf_24_4 value bf_28_4 in if c : bool then Ret 10 else
  let* c := py_between bf_28_4 value bf_32_6 in if c : bool then Ret 11 else
  Ret 12.

Definition metric_wind_dict_to_beaufort (d : loc) : M loc :=
  let! result := new_dict in
  let! items := dict_items d in
  for_each (fun '(key, value) =>
    if negb (String.eqb key "deg") then
      let! bf := lift (beaufort_level value) in
      dict_setitem result key (VInt bf)
    else
      dict_setitem result key value) items ;;
  ret result.

Definition is_none (v : pyval) : bool :=
  match v with VNone => true | _ => false end.

Definition metric_pressure_dict_to_inhg (d : loc) : M loc :=
  let! result := new_dict in
  let! items := dict_items d in
  for_each (fun '(key, value) =>
    if is_none value then
      ret tt
    else
      let! x := lift (let* q := py_truediv value (VFloat HPA_FOR_ONE_INHG) in
                      py_round q ROUNDED_TO) in
      dict_setitem result key x) items ;;
  ret result.

Definition visibility_dict_to (d : loc) (target_visibility_unit : string) : M loc :=
  let! result := new_dict in
  let! const :=
    if String.eqb target_visibility_unit "miles" then ret MILE_FOR_ONE_METER
    else if String.eqb target_visibility_unit "kms" then ret KMS_FOR_ONE_METER
    else raise (ValueError "Invalid value for target visibility unit") in
  let! items := dict_items d in
  for_each (fun '(key, value) =>
    if is_none value then
      ret tt
    else
      let! x := lift (let* p := py_mul value (VFloat const) in py_round p ROUNDED_TO) in
      dict_setitem result key x) items ;;
  ret result.


(** ** Notions the properties are stated with *)

(** *** The order of exact values *)

(** Order on exact values; nothing is related to NaN. *)
Definition val_lt (x y : Float.ext) : Prop := Float.compare x y = Some Lt.

Definition val_le (x y : Float.ext) : Prop :=
  Float.compare x y = Some Lt \/ Float.compare x y = Some Eq.

(** The order of exact values as tests. *)
Definition ext_lt (x y : Float.ext) : bool :=
  match Float.compare x y with Some Lt => true | _ => false end.

Definition ext_le (x y : Float.ext) : bool :=
  match Float.compare x y with Some Lt | Some Eq => true | _ => false end.

(** [v] is a number below zero. *)
Definition negative (v : pyval) : Prop :=
  exists x, num_val v = Some x /\ val_lt x (Float.Fin 0).

(** [v] is an int or a float other than NaN. *)
Definition ordered_number (v : pyval) : Prop :=
  exists x, num_val v = Some x /\ x <> Float.NaN.

(** *** The Beaufort table *)

(** The Beaufort table: the upper bound of each level below 12. *)
Definition beaufort_upper_bounds : list float :=
  [bf_0_2; bf_1_5; bf_3_3; bf_5_4; bf_7_9; bf_10_7;
   bf_13_8; bf_17_1; bf_20_7; bf_24_4; bf_28_4; bf_32_6].

(** [x] lies in the interval of level [l]: above the upper bound of the
    level before, if there is one, and not above its own, if it has one. *)
Definition in_beaufort_interval (x : Float.ext) (l : Z) : Prop :=
  0 <= l <= 12 /\
  (forall lo, 0 < l -> beaufort_upper_bounds !! Z.to_nat (l - 1) = Some lo ->
     val_lt (Float.value lo) x) /\
  (forall hi, beaufort_upper_bounds !! Z.to_nat l = Some hi ->
     val_le x (Float.value hi)).

(** The chain of tests over a table of upper bounds: the level of the first
    interval [(prev, hi]] that holds [x], counting from [l]; the level
    after the last one when none does. *)
Fixpoint table_level (bounds : list Float.ext) (prev : option Float.ext)
    (l : Z) (x : Float.ext) : Z :=
  match bounds with
  | [] => l
  | hi :: rest =>
      if (match prev with None => true | Some lo => ext_lt lo x end) && ext_le x hi
      then l
      else table_level rest (Some hi) (l + 1) x
  end.

(** *** Error messages *)

(** The messages of the two invalid-argument errors. *)
Definition negative_temperature_message : string :=
  "pyowm.utils.measurables: negative temperature values not allowed".

Definition invalid_temperature_unit_message : string :=
  "Invalid value for target temperature conversion                          unit".

Definition invalid_visibility_unit_message : string :=
  "Invalid value for target visibility unit".

(** *** What a loop builds *)

(** What one round of a loop decides: an item to store in the result, no
    item, or an exception. *)
Definition decision : Type := outcome (option (string * pyval)).

Definition store (result : loc) (o : decision) : M unit :=
  match o with
  | Raise e => raise e
  | Ret None => ret tt
  | Ret (Some (k, x)) => dict_setitem result k x
  end.

(** The dict a loop builds from [acc], and the exception that stopped it. *)
Fixpoint build {A : Type} (g : A -> decision) (l : list A) (acc : dict)
    : option exn * dict :=
  match l with
  | [] => (None, acc)
  | a :: l' =>
      match g a with
      | Raise e => (Some e, acc)
      | Ret None => build g l' acc
      | Ret (Some (k, x)) => build g l' (dict_set k x acc)
      end
  end.

(** The items the rounds decide to store, while none raises. *)
Definition stored {A : Type} (g : A -> decision) (l : list A) : dict :=
  omap (fun a => match g a with Ret o => o | Raise _ => None end) l.

(** A function that allocated its result dict after [h] and built it. *)
Definition finish (h : heap) (r : option exn * dict) : outcome loc * heap :=
  (match r.1 with None => Ret (List.length h) | Some e => Raise e end, h ++ [r.2]).

(** Rounds that look at an item and keep its key: an item that [keep]
    selects is stored with a value related to its own by [R], any other
    item is passed over. *)
Definition keeps (g : string * pyval -> decision) (keep : string * pyval -> bool)
    (R : string -> pyval -> pyval -> Prop) (m : dict) : Prop :=
  forall k v, (k, v) ∈ m ->
    if keep (k, v) then exists v', g (k, v) = Ret (Some (k, v')) /\ R k v v'
    else g (k, v) = Ret None.

(** The decisions of the loops of the module. *)
Definition wind_round (c : float) (kv : string * pyval) : decision :=
  if negb (String.eqb kv.1 "deg") then
    let* x := py_mul kv.2 (VFloat c) in Ret (Some (kv.1, x))
  else Ret (Some kv).

Definition beaufort_round (kv : string * pyval) : decision :=
  if negb (String.eqb kv.1 "deg") then
    let* bf := beaufort_level kv.2 in Ret (Some (kv.1, VInt bf))
  else Ret (Some kv).

Definition pressure_round (kv : string * pyval) : decision :=
  if is_none kv.2 then Ret None
  else
    let* q := py_truediv kv.2 (VFloat HPA_FOR_ONE_INHG) in
    let* x := py_round q ROUNDED_TO in
    Ret (Some (kv.1, x)).

Definition visibility_round (const : float) (kv : string * pyval) : decision :=
  if is_none kv.2 then Ret None
  else
    let* p := py_mul kv.2 (VFloat const) in
    let* x := py_round p ROUNDED_TO in
    Ret (Some (kv.1, x)).

Definition comprehension_round (f : pyval -> outcome pyval) (m : dict)
    (key : string) : decision :=
  match dict_get key m with
  | Some v => let* v' := f v in Ret (Some (key, v'))
  | None => Raise (KeyError key)
  end.

(** The decision of a comprehension round, seen from the item of the key. *)
Definition temperature_round (f : pyval -> outcome pyval)
    (kv : string * pyval) : decision :=
  let* v' := f kv.2 in Ret (Some (kv.1, v')).

(** *** What a call returns *)

(** A call that returns a reference to a dict it allocated, holding [m'],
    and leaves every object of the heap [h] as it was. *)
Definition returns_new (r : outcome loc * heap) (h : heap) (m' : dict) : Prop :=
  r = (Ret (List.length h), h ++ [m']).

(** [m'] has the keys of [m]; the value of every key but ['deg'] is the
    float product of the value in [m] and [c], the value of ['deg'] is the
    one in [m]. *)
Definition scaled_by (c : float) (m m' : dict) : Prop :=
  keys m' = keys m
  /\ (forall k v, dict_get k m = Some v -> k <> "deg" ->
        exists f, as_float v = Ret f
                  /\ dict_get k m' = Some (VFloat (Float.mul f c)))
  /\ (forall v, dict_get "deg" m = Some v -> dict_get "deg" m' = Some v).

(** The items whose value is not [None]. *)
Definition non_null (m : dict) : dict :=
  List.filter (fun kv => negb (is_none kv.2)) m.


(** [m'] has the keys of [m], and under each the value [f] returns on the
    value in [m]. *)
Definition converted_by (f : pyval -> outcome pyval) (m m' : dict) : Prop :=
  keys m' = keys m
  /\ (forall k v, dict_get k m = Some v ->
        exists v', f v = Ret v' /\ dict_get k m' = Some v').

(** *** Calls as a caller sees them *)

(** The functions of the module that take a dict. *)
Inductive conversion : Type :=
  | KelvinDictTo (target_temperature_unit : string)
  | MetricWindDictToImperial
  | MetricWindDictToKmH
  | MetricWindDictToKnots
  | MetricWindDictToBeaufort
  | MetricPressureDictToInhg
  | VisibilityDictTo (target_visibility_unit : string).

Definition call (c : conversion) (d : loc) : M loc :=
  match c with
  | KelvinDictTo u => kelvin_dict_to d u
  | MetricWindDictToImperial => metric_wind_dict_to_imperial d
  | MetricWindDictToKmH => metric_wind_dict_to_km_h d
  | MetricWindDictToKnots => metric_wind_dict_to_knots d
  | MetricWindDictToBeaufort => metric_wind_dict_to_beaufort d
  | MetricPressureDictToInhg => metric_pressure_dict_to_inhg d
  | VisibilityDictTo u => visibility_dict_to d u
  end.

(** What a caller can see of a call: the exception, or the contents of the
    dict returned. *)
Definition observe (r : outcome loc * heap) : outcome (option dict) :=
  match r.1 with
  | Ret l => Ret (r.2 !! l)
  | Raise e => Raise e
  end.

(** How a call ends, as far as the contents [m] of its argument decide:
    it returns its argument, it allocates a dict and builds it up to a
    return or an exception, or it raises before it allocates. *)
Inductive shape : Type :=
  | Same
  | Fresh (r : option exn * dict)
  | Fail (e : exn).

Definition describe (c : conversion) (m : dict) : shape :=
  match c with
  | KelvinDictTo u =>
      if String.eqb u "kelvin" then Same
      else if String.eqb u "celsius" then
        Fresh (build (comprehension_round kelvin_to_celsius m) (keys m) [])
      else if String.eqb u "fahrenheit" then
        Fresh (build (comprehension_round kelvin_to_fahrenheit m) (keys m) [])
      else Fail (ValueError invalid_temperature_unit_message)
  | MetricWindDictToImperial =>
      Fresh (build (wind_round MILES_PER_HOUR_FOR_ONE_METER_PER_SEC) m [])
  | MetricWindDictToKmH =>
      Fresh (build (wind_round KM_PER_HOUR_FOR_ONE_METER_PER_SEC) m [])
  | MetricWindDictToKnots =>
      Fresh (build (wind_round KNOTS_FOR_ONE_METER_PER_SEC) m [])
  | MetricWindDictToBeaufort => Fresh (build beaufort_round m [])
  | MetricPressureDictToInhg => Fresh (build pressure_round m [])
  | VisibilityDictTo u =>
      if String.eqb u "miles" then
        Fresh (build (visibility_round MILE_FOR_ONE_METER) m [])
      else if String.eqb u "kms" then
        Fresh (build (visibility_round KMS_FOR_ONE_METER) m [])
      else Fresh (Some (ValueError invalid_visibility_unit_message), [])
  end.

Definition realize (s : shape) (h : heap) (d : loc) : outcome loc * heap :=
  match s with
  | Same => (Ret d, h)
  | Fresh r => finish h r
  | Fail e => (Raise e, h)
  end.

(** *** Notions of the further properties *)

(** The level of a whole number of meters/second. *)
Definition beaufort_of_int (z : Z) : Z :=
  if z <=? 0 then 0 else if z <=? 1 then 1 else if z <=? 3 then 2
  else if z <=? 5 then 3 else if z <=? 7 then 4 else if z <=? 10 then 5
  else if z <=? 13 then 6 else if z <=? 17 then 7 else if z <=? 20 then 8
  else if z <=? 24 then 9 else if z <=? 28 then 10 else if z <=? 32 then 11
  else 12.

(** An int that no float can hold. *)
Definition too_large (v : pyval) : Prop :=
  exists z, v = VInt z /\ Float.is_finite (Float.of_Z z) = false.

(** The float nearest to the fraction [n / d]. *)
Definition nearest_float (n : Z) (d : positive) : float :=
  Float.of_decimal (n <? 0) (Z.to_N (Z.abs n)) d.

(** The float nearest to the hundredth nearest to [n / d], ties to even,
    for [n >= 0]. *)
Definition nearest_hundredth (n : Z) (d : positive) : float :=
  Float.of_decimal false (Z.to_N (Float.round_half_even (n * 100 # d))) 100.

(** The conversions that multiply by a constant. *)
Definition scaling_factor (c : conversion) : option float :=
  match c with
  | MetricWindDictToImperial => Some MILES_PER_HOUR_FOR_ONE_METER_PER_SEC
  | MetricWindDictToKmH => Some KM_PER_HOUR_FOR_ONE_METER_PER_SEC
  | MetricWindDictToKnots => Some KNOTS_FOR_ONE_METER_PER_SEC
  | _ => None
  end.

(** The conversions that reach their loop: every one but those with a unit
    that is not known, and [kelvin_dict_to] with ['kelvin']. *)
Definition loops (c : conversion) : bool :=
  match c with
  | KelvinDictTo u => String.eqb u "celsius" || String.eqb u "fahrenheit"
  | VisibilityDictTo u => String.eqb u "miles" || String.eqb u "kms"
  | _ => true
  end.

(** A call that raises, and a call that raises nothing but [E]. *)
Definition raises (r : outcome loc * heap) : Prop :=
  exists e h', r = (Raise e, h').

Definition raises_only (E : exn) (r : outcome loc * heap) : Prop :=
  forall e h', r = (Raise e, h') -> e = E.

(** A call on a dict [m] that raises exactly when an item of [m] is in
    [bad], and then raises [E]. *)
Definition fails_on (bad : string -> pyval -> Prop) (E : exn) (m : dict)
    (r : outcome loc * heap) : Prop :=
  (raises r <-> exists k v, (k, v) ∈ m /\ bad k v) /\ raises_only E r.

(** Every item of the dict a call returns is in [P]. *)
Definition all_items (P : string -> pyval -> Prop) (r : outcome loc * heap) : Prop :=
  forall l h1 m', r = (Ret l, h1) -> h1 !! l = Some m' ->
    forall k v, (k, v) ∈ m' -> P k v.

Definition is_float (v : pyval) : Prop := exists f, v = VFloat f.

Definition is_int (v : pyval) : Prop := exists z, v = VInt z.

(** The checks of the measured ranges, one reading at a time. *)
Definition celsius_exact (z : Z) : bool :=
  bool_decide (kelvin_to_celsius (VInt z)
               = Ret (VFloat (nearest_float (100 * z - 27315) 100))).

Definition fahrenheit_exact (z : Z) : bool :=
  bool_decide (kelvin_to_fahrenheit (VInt z)
               = Ret (VFloat (nearest_float (180 * z - 45967) 100))).

Definition inhg_exact (z : Z) : bool :=
  bool_decide (pressure_round ("", VInt z)
               = Ret (Some ("", VFloat (nearest_hundredth (z * 10000) 338639)))).

Definition miles_exact (z : Z) : bool :=
  bool_decide (visibility_round MILE_FOR_ONE_METER ("", VInt (10 * z))
               = Ret (Some ("", VFloat (nearest_hundredth (10 * z * 621371)
                                          1000000000)))).

Definition kms_exact (z : Z) : bool :=
  bool_decide (visibility_round KMS_FOR_ONE_METER ("", VInt (10 * z))
               = Ret (Some ("", VFloat (nearest_float z 100)))).

(** * Properties *)

(** ** Exact values and their order *)

Lemma compare_flip x y :
  Float.compare y x = option_map CompOpp (Float.compare x y).
Proof.
  destruct x, y; simpl; try reflexivity.
  f_equal. symmetry. apply Qcompare_antisym.
Qed.

Lemma compare_some x y :
  x <> Float.NaN -> y <> Float.NaN -> exists c, Float.compare x y = Some c.
Proof. destruct x, y; simpl; intros; try congruence; eauto. Qed.

Lemma val_lt_le x y : val_lt x y -> val_le x y.
Proof. unfold val_lt, val_le. auto. Qed.

Lemma not_val_le x y :
  x <> Float.NaN -> y <> Float.NaN -> ~ val_le x y -> val_lt y x.
Proof.
  intros Hx Hy Hn. unfold val_le, val_lt in *.
  rewrite compare_flip.
  destruct (compare_some x y Hx Hy) as [[ | | ] Hc]; rewrite Hc in *; tauto.
Qed.

Lemma val_lt_le_trans x y z : val_lt x y -> val_le y z -> val_lt x z.
Proof.
  unfold val_lt, val_le.
  destruct x, y, z; simpl; intros Hxy Hyz; try congruence;
    try (destruct Hyz; congruence).
  f_equal. apply Qlt_alt.
  assert (q < q0)%Q by (apply Qlt_alt; congruence).
  assert (q0 <= q1)%Q.
  { destruct Hyz as [H1|H1]; injection H1 as H1.
    - apply Qlt_le_weak, Qlt_alt, H1.
    - apply Qeq_alt in H1. rewrite H1. apply Qle_refl. }
  eapply Qlt_le_trans; eauto.
Qed.

Lemma value_not_nan_finite s m e : Float.value (S754_finite s m e) <> Float.NaN.
Proof. simpl. congruence. Qed.

(** The Python comparisons decide the order of the exact values. *)
Lemma py_lt_true a b :
  py_lt a b = Ret true <->
  exists x y, num_val a = Some x /\ num_val b = Some y /\ val_lt x y.
Proof.
  unfold py_lt, py_compare, val_lt. split.
  - destruct (num_val a) as [x|], (num_val b) as [y|]; simpl; try congruence.
    destruct (Float.compare x y) as [[ | | ]|] eqn:E; try congruence.
    eauto 6.
  - intros (x & y & -> & -> & ->). reflexivity.
Qed.

Lemma py_lt_zero_negative k : py_lt k (VInt 0) = Ret true <-> negative k.
Proof.
  rewrite py_lt_true. unfold negative. split.
  - intros (x & y & Hx & [= <-] & Hlt). eauto.
  - intros (x & Hx & Hlt). exists x, (Float.Fin 0). auto.
Qed.

(** ** Formatting and reading back *)

Lemma split_digits_dot u r :
  split_at_dot (NilEmpty.string_of_uint u +:+ String "."%char r)
  = (NilEmpty.string_of_uint u, Some r).
Proof. induction u; simpl; rewrite ?IHu; reflexivity. Qed.

Lemma to_uint_nonnil n : N.to_uint n <> Decimal.Nil.
Proof.
  destruct n; simpl; [discriminate|]. apply DecimalPos.Unsigned.to_uint_nonnil.
Qed.

Lemma two_digits_shape r :
  (r < 100)%N ->
  exists u, two_digits r = NilEmpty.string_of_uint u
            /\ N.of_uint u = r /\ String.length (two_digits r) = 2%nat.
Proof.
  intros Hr. unfold two_digits.
  eexists. split; [reflexivity|]. split.
  - destruct (r <? 10)%N; [change (N.of_uint (N.to_uint r) = r)|];
      apply DecimalN.Unsigned.of_to.
  - assert (Hall : forallb (fun k =>
        Nat.eqb (String.length (two_digits (N.of_nat k))) 2) (seq 0 100) = true)
      by (vm_compute; reflexivity).
    rewrite forallb_forall in Hall.
    specialize (Hall (N.to_nat r)). rewrite N2Nat.id in Hall.
    apply Nat.eqb_eq, Hall, in_seq. lia.
Qed.

Lemma parse_fixed2 n :
  parse_decimal (NilEmpty.string_of_uint (N.to_uint (n / 100))
                 +:+ "." +:+ two_digits (n mod 100)) = Some (n, 100%positive).
Proof.
  unfold parse_decimal.
  change ("." +:+ two_digits (n mod 100)) with (String "."%char (two_digits (n mod 100))).
  rewrite split_digits_dot. simpl default.
  destruct (two_digits_shape (n mod 100)) as (u & Hu & Hval & Hlen).
  { apply N.mod_lt. discriminate. }
  rewrite NilEmpty.usu, Hu, NilEmpty.usu, <- Hu, Hlen.
  rewrite Nat.add_comm. simpl Nat.eqb. cbv iota.
  rewrite DecimalN.Unsigned.of_to, Hval.
  change (Float.pow10 2) with 100%positive.
  f_equal. f_equal. rewrite N.mul_comm. symmetry. apply N.div_mod. discriminate.
Qed.

Lemma digits_not_word u r :
  u <> Decimal.Nil ->
  String.eqb (NilEmpty.string_of_uint u +:+ r) "nan" = false
  /\ String.eqb (NilEmpty.string_of_uint u +:+ r) "inf" = false.
Proof. intros Hu. destruct u; try congruence; split; reflexivity. Qed.

Lemma digits_unsigned u r :
  u <> Decimal.Nil ->
  float_of_string (NilEmpty.string_of_uint u +:+ r) =
    match parse_decimal (NilEmpty.string_of_uint u +:+ r) with
    | Some (n, d) => Some (Float.of_decimal false n d)
    | None => None
    end.
Proof.
  intros Hu. destruct (digits_not_word u r Hu) as [Hnan Hinf].
  unfold float_of_string.
  replace (match NilEmpty.string_of_uint u +:+ r with
           | String "-"%char r0 => (true, r0)
           | String "+"%char r0 => (false, r0)
           | _ => (false, NilEmpty.string_of_uint u +:+ r)
           end) with (false, NilEmpty.string_of_uint u +:+ r)
    by (destruct u; try congruence; reflexivity).
  rewrite Hnan, Hinf. reflexivity.
Qed.

Lemma float_of_fixed2 s n :
  float_of_string (fixed2 s n) = Some (Float.of_decimal s n 100).
Proof.
  unfold fixed2. destruct s.
  - change ("-" +:+ ?x) with (String "-"%char x).
    destruct (digits_not_word (N.to_uint (n / 100))
                ("." +:+ two_digits (n mod 100)) (to_uint_nonnil _)) as [Hnan Hinf].
    unfold float_of_string. rewrite Hnan, Hinf, parse_fixed2. reflexivity.
  - change ("" +:+ ?x) with x.
    rewrite (digits_unsigned _ _ (to_uint_nonnil _)), parse_fixed2. reflexivity.
Qed.

(** Formatting with two places and reading the text back rounds to two
    places. *)
Lemma float_of_format_2f f :
  float_of_string (format_float_2f f) = Some (Float.round2 f).
Proof.
  destruct f as [s|s| |s m e]; simpl format_float_2f.
  - destruct s; reflexivity.
  - destruct s; reflexivity.
  - reflexivity.
  - apply float_of_fixed2.
Qed.

(** ** Rounding *)

Lemma round_half_even_nearest q :
  (inject_Z (Float.round_half_even q) - (1 # 2) <= q
   <= inject_Z (Float.round_half_even q) + (1 # 2))%Q.
Proof.
  unfold Float.round_half_even.
  pose proof (Qfloor_le q) as Hlo. pose proof (Qlt_floor q) as Hhi.
  rewrite inject_Z_plus in Hhi. change (inject_Z 1) with 1%Q in Hhi.
  destruct (q - inject_Z (Qfloor q) ?= 1 # 2)%Q eqn:E.
  - apply Qeq_alt in E.
    destruct (Z.even (Qfloor q)); rewrite ?inject_Z_plus;
      change (inject_Z 1) with 1%Q; lra.
  - apply Qlt_alt in E. lra.
  - apply Qgt_alt in E. rewrite inject_Z_plus. change (inject_Z 1) with 1%Q. lra.
Qed.

Lemma round_half_even_nonneg q : (0 <= q)%Q -> 0 <= Float.round_half_even q.
Proof.
  intros Hq. unfold Float.round_half_even.
  assert (0 <= Qfloor q).
  { change 0 with (Qfloor 0). apply Qfloor_resp_le, Hq. }
  destruct (_ ?= _)%Q; [destruct (Z.even _)| |]; lia.
Qed.

Lemma magnitude_pos m e : (0 < Float.magnitude m e)%Q.
Proof.
  unfold Float.magnitude. apply Qmult_lt_0_compat.
  - reflexivity.
  - apply Qpower_0_lt. reflexivity.
Qed.

(** The hundredths [round2] keeps are the nearest to a hundred times the
    magnitude of the number. *)
Lemma hundredths_nearest m e :
  (inject_Z (Z.of_N (Float.hundredths m e)) - (1 # 2)
   <= Float.magnitude m e * 100
   <= inject_Z (Z.of_N (Float.hundredths m e)) + (1 # 2))%Q.
Proof.
  change (Float.hundredths m e)
    with (Z.to_N (Float.round_half_even (Float.magnitude m e * 100))).
  rewrite Z2N.id.
  - apply round_half_even_nearest.
  - apply round_half_even_nonneg. pose proof (magnitude_pos m e). lra.
Qed.

(** ** The scalar temperature conversions *)

Lemma py_sub_float k c :
  py_sub k (VFloat c) = let* kf := as_float k in Ret (VFloat (Float.sub kf c)).
Proof. destruct k; reflexivity. Qed.

Lemma py_mul_float k c :
  py_mul k (VFloat c) = let* kf := as_float k in Ret (VFloat (Float.mul kf c)).
Proof. destruct k; reflexivity. Qed.

Lemma kelvin_to_celsius_unfold k :
  kelvin_to_celsius k =
    let* neg := py_lt k (VInt 0) in
    if neg : bool then Raise (ValueError negative_temperature_message)
    else let* kf := as_float k in
         Ret (VFloat (Float.round2 (Float.sub kf KELVIN_OFFSET))).
Proof.
  unfold kelvin_to_celsius.
  destruct (py_lt k (VInt 0)) as [[|]|]; simpl; try reflexivity.
  rewrite py_sub_float.
  destruct (as_float k) as [kf|]; simpl; [|reflexivity].
  unfold py_float_of_str. rewrite float_of_format_2f. reflexivity.
Qed.

Lemma kelvin_to_fahrenheit_unfold k :
  kelvin_to_fahrenheit k =
    let* neg := py_lt k (VInt 0) in
    if neg : bool then Raise (ValueError negative_temperature_message)
    else let* kf := as_float k in
         Ret (VFloat (Float.round2
           (Float.add (Float.mul (Float.sub kf KELVIN_OFFSET) FAHRENHEIT_DEGREE_SCALE)
                      FAHRENHEIT_OFFSET))).
Proof.
  unfold kelvin_to_fahrenheit.
  destruct (py_lt k (VInt 0)) as [[|]|]; simpl; try reflexivity.
  rewrite py_sub_float.
  destruct (as_float k) as [kf|]; simpl; [|reflexivity].
  unfold py_float_of_str. rewrite float_of_format_2f. reflexivity.
Qed.

Lemma py_ge_not_lt k : py_ge k (VInt 0) = Ret true -> py_lt k (VInt 0) = Ret false.
Proof.
  unfold py_ge, py_lt. destruct (py_compare k (VInt 0)) as [[[ | | ]|]|]; simpl; congruence.
Qed.

Lemma py_lt_cases k :
  py_lt k (VInt 0) = Ret true /\ negative k
  \/ py_lt k (VInt 0) = Ret false /\ ~ negative k
  \/ py_lt k (VInt 0) = Raise TypeError /\ k = VNone.
Proof.
  destruct (py_lt k (VInt 0)) as [[|]|e] eqn:E.
  - left. split; [reflexivity|]. apply py_lt_zero_negative, E.
  - right; left. split; [reflexivity|]. rewrite <- py_lt_zero_negative. congruence.
  - right; right. destruct k; simpl in E; try discriminate. unfold py_lt, py_compare in E.
    simpl in E. split; congruence.
Qed.

Lemma as_float_no_value_error {A} k (g : float -> A) msg :
  (let* kf := as_float k in Ret (g kf)) <> Raise (ValueError msg).
Proof.
  destruct k; simpl; try discriminate.
  destruct (Float.is_finite _); discriminate.
Qed.

(** C2, as the code has it.  For a number [k >= 0] that is a float, or an
    int that converts to one, [kelvin_to_celsius(k)] is [k - 273.15]
    rounded to two decimal places, and [kelvin_to_fahrenheit(k)] is
    [(k - 273.15) * 1.8 + 32.0] rounded to two decimal places, both as
    floats. *)
Theorem kelvin_scalar_values (k : pyval) (kf : float) :
  as_float k = Ret kf ->
  py_ge k (VInt 0) = Ret true ->
  kelvin_to_celsius k
    = Ret (VFloat (Float.round2 (Float.sub kf KELVIN_OFFSET)))
  /\ kelvin_to_fahrenheit k
    = Ret (VFloat (Float.round2
        (Float.add (Float.mul (Float.sub kf KELVIN_OFFSET) FAHRENHEIT_DEGREE_SCALE)
                   FAHRENHEIT_OFFSET))).
Proof.
  intros Hk Hge. apply py_ge_not_lt in Hge.
  rewrite kelvin_to_celsius_unfold, kelvin_to_fahrenheit_unfold, Hge, Hk.
  split; reflexivity.
Qed.

Lemma kelvin_scalar_values_witness :
  as_float (VInt 300) = Ret (S754_finite false 5277655813324800 (-44))
  /\ py_ge (VInt 300) (VInt 0) = Ret true
  /\ kelvin_to_celsius (VInt 300)
     = Ret (VFloat (Float.round2
         (Float.sub (S754_finite false 5277655813324800 (-44)) KELVIN_OFFSET))).
Proof.
  split; [reflexivity|]. split; [reflexivity|].
  apply (kelvin_scalar_values (VInt 300) (S754_finite false 5277655813324800 (-44)));
    reflexivity.
Defined.

(** The claim C2 as it is worded fails: an int too large for a float is a
    number [k >= 0] on which the subtraction raises OverflowError, so that
    nothing is returned. *)
Lemma kelvin_scalar_values_counterexample :
  ~ (forall k : pyval,
       py_ge k (VInt 0) = Ret true ->
       (exists f, kelvin_to_celsius k = Ret (VFloat f))
       /\ (exists f, kelvin_to_fahrenheit k = Ret (VFloat f))).
Proof.
  intros H. destruct (H (VInt (10 ^ 400))) as [[f Hf] _].
  - vm_compute. reflexivity.
  - vm_compute in Hf. discriminate.
Qed.

Lemma huge_int_overflows k :
  too_large k -> ~ negative k ->
  kelvin_to_celsius k = Raise OverflowError
  /\ kelvin_to_fahrenheit k = Raise OverflowError.
Proof.
  intros (z & -> & Hz) Hn.
  rewrite kelvin_to_celsius_unfold, kelvin_to_fahrenheit_unfold.
  destruct (py_lt_cases (VInt z)) as [[_ Hneg]|[[-> _]|[_ Hnone]]];
    [tauto| |discriminate].
  simpl. rewrite Hz. split; reflexivity.
Qed.

(** C3, as the code has it.  The scalar conversions raise the
    invalid-argument error, the one of the negative temperature, exactly on
    a negative [k]; on a number [k >= 0] that is a float, or an int that
    converts to one, neither raises; on an int too large for a float that
    is not negative both raise OverflowError. *)
Theorem kelvin_scalar_errors (k : pyval) :
  (negative k ->
     kelvin_to_celsius k = Raise (ValueError negative_temperature_message)
     /\ kelvin_to_fahrenheit k = Raise (ValueError negative_temperature_message))
  /\ ((exists msg, kelvin_to_celsius k = Raise (ValueError msg)) -> negative k)
  /\ ((exists msg, kelvin_to_fahrenheit k = Raise (ValueError msg)) -> negative k)
  /\ (forall kf, as_float k = Ret kf -> py_ge k (VInt 0) = Ret true ->
        (exists v, kelvin_to_celsius k = Ret v)
        /\ (exists v, kelvin_to_fahrenheit k = Ret v))
  /\ (too_large k -> ~ negative k ->
        kelvin_to_celsius k = Raise OverflowError
        /\ kelvin_to_fahrenheit k = Raise OverflowError).
Proof.
  generalize (huge_int_overflows k).
  rewrite kelvin_to_celsius_unfold, kelvin_to_fahrenheit_unfold.
  destruct (py_lt_cases k) as [[-> Hn]|[[-> Hn]|[-> ->]]]; simpl; intros Hhuge.
  - split; [auto|]. split; [auto|]. split; [auto|]. split; [|exact Hhuge].
    intros kf _ Hge%py_ge_not_lt.
    apply py_lt_zero_negative in Hn. congruence.
  - split; [tauto|].
    split; [intros [msg H]; destruct (as_float_no_value_error k _ msg H)|].
    split; [intros [msg H]; destruct (as_float_no_value_error k _ msg H)|].
    split; [|exact Hhuge].
    intros kf -> _. simpl. eauto.
  - split; [intros (x & Hx & _); discriminate|].
    split; [intros [msg H]; discriminate|].
    split; [intros [msg H]; discriminate|].
    split; [|exact Hhuge].
    intros kf Hk. discriminate.
Qed.

Lemma kelvin_scalar_errors_witness :
  (exists v, kelvin_to_celsius (VInt 300) = Ret v)
  /\ kelvin_to_fahrenheit (VInt (-40)) = Raise (ValueError negative_temperature_message).
Proof.
  split.
  - destruct (kelvin_scalar_errors (VInt 300)) as (_ & _ & _ & H & _).
    destruct (H (S754_finite false 5277655813324800 (-44)) eq_refl eq_refl) as [Hc _].
    exact Hc.
  - destruct (kelvin_scalar_errors (VInt (-40))) as (H & _).
    apply H. exists (Float.Fin (inject_Z (-40))). split; reflexivity.
Defined.

(** The claim C3 as it is worded fails: on an int too large for a float,
    which is not below zero, both conversions raise. *)
Lemma kelvin_scalar_errors_counterexample :
  ~ (forall k : pyval,
       py_ge k (VInt 0) = Ret true ->
       forall e : exn,
         kelvin_to_celsius k <> Raise e /\ kelvin_to_fahrenheit k <> Raise e).
Proof.
  intros H. destruct (H (VInt (2 ^ 1024))) with (e := OverflowError) as [Hc _].
  - vm_compute. reflexivity.
  - apply Hc. vm_compute. reflexivity.
Qed.

(** ** The heap: the result dict is the last object allocated *)

Lemma lookup_last (h : heap) (acc : dict) : (h ++ [acc]) !! List.length h = Some acc.
Proof. apply list_lookup_middle. reflexivity. Qed.

Lemma lookup_old (h : heap) (acc m : dict) (d : loc) :
  h !! d = Some m -> (h ++ [acc]) !! d = Some m.
Proof. apply lookup_app_l_Some. Qed.

Lemma insert_last (h : heap) (acc x : dict) :
  <[List.length h := x]> (h ++ [acc]) = h ++ [x].
Proof.
  rewrite insert_app_r_alt by reflexivity.
  rewrite Nat.sub_diag. reflexivity.
Qed.

Lemma store_last (h : heap) (acc : dict) (o : decision) :
  store (List.length h) o (h ++ [acc]) =
    match o with
    | Raise e => (Raise e, h ++ [acc])
    | Ret None => (Ret tt, h ++ [acc])
    | Ret (Some (k, x)) => (Ret tt, h ++ [dict_set k x acc])
    end.
Proof.
  destruct o as [[[k x]|]|e]; try reflexivity.
  unfold store, dict_setitem. rewrite lookup_last, insert_last. reflexivity.
Qed.

Section Loop.
Context {A : Type} (body : A -> M unit) (g : A -> decision) (h : heap).
Hypothesis body_store :
  forall a acc, body a (h ++ [acc]) = store (List.length h) (g a) (h ++ [acc]).

Lemma for_each_build (l : list A) (acc : dict) :
  for_each body l (h ++ [acc]) =
    (match (build g l acc).1 with None => Ret tt | Some e => Raise e end,
     h ++ [(build g l acc).2]).
Proof using body_store.
  revert acc. induction l as [|a l IH]; intros acc; [reflexivity|].
  simpl. unfold bindM. rewrite body_store, store_last.
  destruct (g a) as [[[k x]|]|e]; simpl; auto.
Qed.

Lemma loop_finish (l : list A) :
  (for_each body l ;; ret (List.length h)) (h ++ [[]]) = finish h (build g l []).
Proof using body_store.
  unfold bindM, finish. rewrite for_each_build.
  destruct (build g l []) as [[e|] acc]; reflexivity.
Qed.
End Loop.

(** ** Each function runs its loop on a fresh dict *)

Section Unfold.
Context (h : heap) (d : loc) (m : dict).
Hypothesis live : h !! d = Some m.

Lemma items_loop_unfold (body : loc -> string * pyval -> M unit)
    (g : string * pyval -> decision) :
  (forall a acc, body (List.length h) a (h ++ [acc])
                 = store (List.length h) (g a) (h ++ [acc])) ->
  (let! result := new_dict in
   let! items := dict_items d in
   for_each (body result) items ;; ret result) h = finish h (build g m []).
Proof using live.
  intros Hbody. unfold bindM at 1 2. unfold new_dict, dict_items.
  rewrite (lookup_old _ _ _ _ live). apply loop_finish, Hbody.
Qed.

Lemma wind_body_store c (a : string * pyval) acc :
  (let '(key, value) := a in
   if negb (String.eqb key "deg") then
     let! x := lift (py_mul value (VFloat c)) in
     dict_setitem (List.length h) key x
   else dict_setitem (List.length h) key value) (h ++ [acc])
  = store (List.length h) (wind_round c a) (h ++ [acc]).
Proof.
  destruct a as [key value]. unfold wind_round. simpl.
  destruct (negb _); [|reflexivity].
  unfold bindM, lift. destruct (py_mul _ _); reflexivity.
Qed.

Lemma metric_wind_dict_to_imperial_unfold :
  metric_wind_dict_to_imperial d h
  = finish h (build (wind_round MILES_PER_HOUR_FOR_ONE_METER_PER_SEC) m []).
Proof using live. apply items_loop_unfold, wind_body_store. Qed.

Lemma metric_wind_dict_to_km_h_unfold :
  metric_wind_dict_to_km_h d h
  = finish h (build (wind_round KM_PER_HOUR_FOR_ONE_METER_PER_SEC) m []).
Proof using live. apply items_loop_unfold, wind_body_store. Qed.

Lemma metric_wind_dict_to_knots_unfold :
  metric_wind_dict_to_knots d h
  = finish h (build (wind_round KNOTS_FOR_ONE_METER_PER_SEC) m []).
Proof using live. apply items_loop_unfold, wind_body_store. Qed.

Lemma metric_wind_dict_to_beaufort_unfold :
  metric_wind_dict_to_beaufort d h = finish h (build beaufort_round m []).
Proof using live.
  apply items_loop_unfold. intros [key value] acc. unfold beaufort_round. simpl.
  destruct (negb _); [|reflexivity].
  unfold bindM, lift. destruct (beaufort_level _); reflexivity.
Qed.

Lemma metric_pressure_dict_to_inhg_unfold :
  metric_pressure_dict_to_inhg d h = finish h (build pressure_round m []).
Proof using live.
  apply items_loop_unfold. intros [key value] acc. unfold pressure_round. simpl.
  destruct (is_none _); [reflexivity|].
  unfold bindM, lift. destruct (py_truediv _ _) as [q|]; simpl; [|reflexivity].
  destruct (py_round q ROUNDED_TO); reflexivity.
Qed.

Lemma visibility_loop_unfold const :
  (let! items := dict_items d in
   for_each (fun '(key, value) =>
     if is_none value then ret tt
     else
       let! x := lift (let* p := py_mul value (VFloat const) in py_round p ROUNDED_TO) in
       dict_setitem (List.length h) key x) items ;;
   ret (List.length h)) (h ++ [[]])
  = finish h (build (visibility_round const) m []).
Proof using live.
  unfold bindM at 1. unfold dict_items. rewrite (lookup_old _ _ _ _ live).
  apply loop_finish. intros [key value] acc. unfold visibility_round. simpl.
  destruct (is_none _); [reflexivity|].
  unfold bindM, lift. destruct (py_mul _ _) as [q|]; simpl; [|reflexivity].
  destruct (py_round q ROUNDED_TO); reflexivity.
Qed.

Lemma visibility_dict_to_unfold u :
  visibility_dict_to d u h =
    if String.eqb u "miles" then
      finish h (build (visibility_round MILE_FOR_ONE_METER) m [])
    else if String.eqb u "kms" then
      finish h (build (visibility_round KMS_FOR_ONE_METER) m [])
    else (Raise (ValueError invalid_visibility_unit_message), h ++ [[]]).
Proof using live.
  unfold visibility_dict_to. unfold bindM at 1 2. unfold new_dict.
  destruct (String.eqb u "miles"); [apply visibility_loop_unfold|].
  destruct (String.eqb u "kms"); [apply visibility_loop_unfold|].
  reflexivity.
Qed.

Lemma dict_comprehension_unfold f :
  dict_comprehension f d h
  = finish h (build (comprehension_round f m) (keys m) []).
Proof using live.
  unfold dict_comprehension. unfold bindM at 1 2. unfold dict_keys, new_dict.
  rewrite live. apply loop_finish. intros key acc.
  unfold comprehension_round, bindM at 1, dict_getitem.
  rewrite (lookup_old _ _ _ _ live).
  destruct (dict_get key m) as [v|]; [|reflexivity].
  unfold bindM, lift. destruct (f v); reflexivity.
Qed.

Lemma kelvin_dict_to_unfold u :
  kelvin_dict_to d u h =
    if String.eqb u "kelvin" then (Ret d, h)
    else if String.eqb u "celsius" then
      finish h (build (comprehension_round kelvin_to_celsius m) (keys m) [])
    else if String.eqb u "fahrenheit" then
      finish h (build (comprehension_round kelvin_to_fahrenheit m) (keys m) [])
    else (Raise (ValueError invalid_temperature_unit_message), h).
Proof using live.
  unfold kelvin_dict_to.
  destruct (String.eqb u "kelvin"); [reflexivity|].
  destruct (String.eqb u "celsius"); [apply dict_comprehension_unfold|].
  destruct (String.eqb u "fahrenheit"); [apply dict_comprehension_unfold|].
  reflexivity.
Qed.
End Unfold.

(** ** Dicts *)

Lemma dict_get_notin k (m : dict) : k ∉ keys m -> dict_get k m = None.
Proof.
  induction m as [|[k' v'] m IH]; [reflexivity|]. simpl.
  rewrite not_elem_of_cons. intros [Hne Hnin].
  destruct (String.eqb_spec k k'); [congruence|]. apply IH, Hnin.
Qed.

Lemma dict_get_elem k v (m : dict) : dict_get k m = Some v -> (k, v) ∈ m.
Proof.
  induction m as [|[k' v'] m IH]; simpl; [discriminate|].
  destruct (String.eqb_spec k k') as [->|Hne].
  - intros [= ->]. left.
  - intros H. right. apply IH, H.
Qed.

Lemma elem_keys k v (m : dict) : (k, v) ∈ m -> k ∈ keys m.
Proof. intros H. apply (list_elem_of_fmap_2 fst) in H. exact H. Qed.

Lemma dict_get_item k v (m : dict) :
  NoDup (keys m) -> (k, v) ∈ m -> dict_get k m = Some v.
Proof.
  induction m as [|[k' v'] m IH]; simpl.
  - intros _ H. inversion H.
  - rewrite NoDup_cons, elem_of_cons. intros [Hnin Hnd] [[= -> ->]|Hin].
    + rewrite String.eqb_refl. reflexivity.
    + destruct (String.eqb_spec k k') as [->|Hne]; [|auto].
      destruct Hnin. eapply elem_keys, Hin.
Qed.

Lemma dict_set_fresh k x (acc : dict) :
  k ∉ keys acc -> dict_set k x acc = acc ++ [(k, x)].
Proof.
  induction acc as [|[k' v'] acc IH]; [reflexivity|]. simpl.
  rewrite not_elem_of_cons. intros [Hne Hnin].
  destruct (String.eqb_spec k k'); [congruence|]. rewrite IH by exact Hnin.
  reflexivity.
Qed.

(** ** What a loop builds *)

Section Build.
Context {A : Type} (g : A -> decision).

Lemma build_stored (l : list A) (acc : dict) :
  (forall a, a ∈ l -> exists o, g a = Ret o) ->
  NoDup (keys (acc ++ stored g l)) ->
  build g l acc = (None, acc ++ stored g l).
Proof.
  revert acc. induction l as [|a l IH]; intros acc Hret Hnd.
  - simpl. rewrite app_nil_r. reflexivity.
  - destruct (Hret a) as [o Ho]; [left|].
    assert (Hret' : forall b, b ∈ l -> exists o, g b = Ret o)
      by (intros b Hb; apply Hret; right; exact Hb).
    unfold stored in *. simpl in *. rewrite Ho in *.
    destruct o as [[k x]|]; simpl in *; [|apply IH; assumption].
    assert (Hk : k ∉ keys acc).
    { unfold keys in Hnd. rewrite fmap_app in Hnd.
      apply NoDup_app in Hnd as (_ & Hd & _).
      intros Hin. apply (Hd k Hin). left. }
    rewrite dict_set_fresh by exact Hk.
    rewrite IH; rewrite <- ?app_assoc; auto.
Qed.

Lemma build_raise (pre post : list A) (a : A) (e : exn) (acc : dict) :
  (forall b, b ∈ pre -> exists o, g b = Ret o) ->
  g a = Raise e ->
  (build g (pre ++ a :: post) acc).1 = Some e.
Proof.
  revert acc. induction pre as [|b pre IH]; intros acc Hret Ha; simpl.
  - rewrite Ha. reflexivity.
  - destruct (Hret b) as [o Ho]; [left|]. rewrite Ho.
    destruct o as [[k x]|]; apply IH; auto; intros c Hc; apply Hret; right; exact Hc.
Qed.

Lemma build_error (l : list A) (acc : dict) (e : exn) :
  (build g l acc).1 = Some e -> exists a, a ∈ l /\ g a = Raise e.
Proof.
  revert acc. induction l as [|a l IH]; intros acc; simpl; [discriminate|].
  destruct (g a) as [[[k x]|]|e'] eqn:Ha.
  - intros H. destruct (IH _ H) as (b & Hb & Hgb). exists b. split; [right|]; auto.
  - intros H. destruct (IH _ H) as (b & Hb & Hgb). exists b. split; [right|]; auto.
  - simpl. intros [= ->]. exists a. split; [left|]; auto.
Qed.
End Build.

Lemma build_fmap {A B : Type} (p : A -> B) (g : A -> decision) (g' : B -> decision)
    (l : list A) (acc : dict) :
  (forall a, a ∈ l -> g' (p a) = g a) ->
  build g' (p <$> l) acc = build g l acc.
Proof.
  revert acc. induction l as [|a l IH]; intros acc Heq; [reflexivity|].
  simpl. rewrite Heq by left.
  destruct (g a) as [[[k x]|]|e]; try reflexivity; apply IH; intros b Hb; apply Heq; right; exact Hb.
Qed.

(** The items stored by rounds that keep the key of the item they look at. *)
Section Stored.
Context (g : string * pyval -> decision) (keep : string * pyval -> bool)
        (R : string -> pyval -> pyval -> Prop).

Lemma keeps_cons a m : keeps g keep R (a :: m) -> keeps g keep R m.
Proof. intros H k v Hin. apply H. right. exact Hin. Qed.

Lemma keeps_ret m : keeps g keep R m -> forall a, a ∈ m -> exists o, g a = Ret o.
Proof.
  intros H [k v] Hin. specialize (H k v Hin).
  destruct (keep (k, v)); [destruct H as (v' & -> & _)|rewrite H]; eauto.
Qed.

Lemma stored_keys m : keeps g keep R m -> keys (stored g m) = keys (List.filter keep m).
Proof.
  induction m as [|[k v] m IH]; intros H; [reflexivity|].
  pose proof (H k v (list_elem_of_here _ _)) as Hkv.
  unfold stored in *. simpl.
  destruct (keep (k, v)).
  - destruct Hkv as (v' & -> & _). simpl. f_equal. apply IH, (keeps_cons _ _ H).
  - rewrite Hkv. apply IH, (keeps_cons _ _ H).
Qed.

Lemma filter_keys_subset m k : k ∈ keys (List.filter keep m) -> k ∈ keys m.
Proof.
  induction m as [|a m IH]; simpl; [auto|].
  destruct (keep a); simpl; rewrite ?elem_of_cons; intuition.
Qed.

Lemma filter_keys_NoDup m : NoDup (keys m) -> NoDup (keys (List.filter keep m)).
Proof.
  induction m as [|a m IH]; simpl; [auto|].
  rewrite NoDup_cons. intros [Hnin Hnd].
  destruct (keep a); simpl; [|auto].
  apply NoDup_cons. split; [|auto].
  intros Hin. apply Hnin, filter_keys_subset, Hin.
Qed.

Lemma stored_get m :
  keeps g keep R m -> NoDup (keys m) ->
  forall k v, (k, v) ∈ m ->
    if keep (k, v) then exists v', dict_get k (stored g m) = Some v' /\ R k v v'
    else dict_get k (stored g m) = None.
Proof.
  induction m as [|[k0 v0] m IH]; intros H Hnd k v Hin; [inversion Hin|].
  pose proof (H k0 v0 (list_elem_of_here _ _)) as H0.
  pose proof (keeps_cons _ _ H) as H'.
  simpl in Hnd. apply NoDup_cons in Hnd as [Hnin Hnd].
  apply elem_of_cons in Hin as [[= -> ->]|Hin].
  - unfold stored. simpl. destruct (keep (k0, v0)).
    + destruct H0 as (v' & -> & HR). simpl. rewrite String.eqb_refl. eauto.
    + rewrite H0. apply dict_get_notin.
      change (k0 ∉ keys (stored g m)). rewrite (stored_keys _ H').
      intros Hk. apply Hnin, filter_keys_subset, Hk.
  - assert (Hne : k <> k0) by (intros ->; apply Hnin; eapply elem_keys, Hin).
    specialize (IH H' Hnd k v Hin).
    unfold stored in *. simpl.
    destruct (keep (k0, v0)).
    + destruct H0 as (v' & -> & _). simpl.
      destruct (String.eqb_spec k k0); [congruence|]. exact IH.
    + rewrite H0. exact IH.
Qed.

Lemma build_kept m :
  keeps g keep R m -> NoDup (keys m) -> build g m [] = (None, stored g m).
Proof.
  intros H Hnd. rewrite build_stored; [reflexivity|apply keeps_ret, H|].
  simpl. rewrite (stored_keys _ H). apply filter_keys_NoDup, Hnd.
Qed.
End Stored.

(** ** The Beaufort chain *)

Lemma ext_lt_true x y : ext_lt x y = true <-> val_lt x y.
Proof.
  unfold ext_lt, val_lt. destruct (Float.compare x y) as [[ | | ]|]; split; congruence.
Qed.

Lemma ext_le_true x y : ext_le x y = true <-> val_le x y.
Proof.
  unfold ext_le, val_le.
  destruct (Float.compare x y) as [[ | | ]|]; split; intuition congruence.
Qed.

Lemma ext_le_false x y :
  x <> Float.NaN -> y <> Float.NaN -> ext_le x y = false -> ext_lt y x = true.
Proof.
  intros Hx Hy Hle. apply ext_lt_true, not_val_le; auto.
  rewrite <- ext_le_true. congruence.
Qed.

Lemma py_le_ext v c x :
  num_val v = Some x -> py_le v (VFloat c) = Ret (ext_le x (Float.value c)).
Proof. intros Hx. unfold py_le, py_compare. rewrite Hx. reflexivity. Qed.

Lemma py_between_ext lo v hi x :
  num_val v = Some x ->
  py_between lo v hi
  = Ret (ext_lt (Float.value lo) x && ext_le x (Float.value hi)).
Proof.
  intros Hx. unfold py_between, py_lt, py_le, py_compare. rewrite Hx. simpl.
  unfold ext_lt, ext_le.
  destruct (Float.compare (Float.value lo) x) as [[ | | ]|]; reflexivity.
Qed.

(** The chain in the source is the chain over the table. *)
Lemma beaufort_level_table v x :
  num_val v = Some x ->
  beaufort_level v
  = Ret (table_level (Float.value <$> beaufort_upper_bounds) None 0 x).
Proof.
  intros Hx. unfold beaufort_level.
  rewrite (py_le_ext _ _ _ Hx), !(py_between_ext _ _ _ _ Hx).
  unfold beaufort_upper_bounds. cbn [fmap list_fmap table_level andb bind Z.add Pos.add Pos.succ].
  repeat match goal with
  | |- context [if ?c then _ else _] => destruct c; [reflexivity|]
  end.
  reflexivity.
Qed.

Lemma table_level_range bounds prev l x :
  l <= table_level bounds prev l x <= l + Z.of_nat (List.length bounds).
Proof.
  revert prev l. induction bounds as [|hi rest IH]; intros prev l; simpl.
  - lia.
  - destruct (_ && _); [lia|]. specialize (IH (Some hi) (l + 1)). lia.
Qed.

(** On a number other than NaN the chain finds the interval that holds it:
    the bound before the level found is below [x], the bound of the level
    is not. *)
Lemma table_level_interval bounds prev l x :
  x <> Float.NaN ->
  Forall (fun b => b <> Float.NaN) bounds ->
  (forall lo, prev = Some lo -> ext_lt lo x = true) ->
  let r := table_level bounds prev l x in
  (forall lo, (if r =? l then prev else bounds !! Z.to_nat (r - l - 1)) = Some lo ->
     val_lt lo x)
  /\ (forall hi, bounds !! Z.to_nat (r - l) = Some hi -> val_le x hi).
Proof.
  intros Hx. revert prev l.
  induction bounds as [|hi rest IH]; intros prev l Hb Hprev; simpl.
  - rewrite Z.eqb_refl. split.
    + intros lo Hlo. apply ext_lt_true, Hprev, Hlo.
    + intros hi. rewrite lookup_nil. discriminate.
  - apply Forall_cons in Hb as [Hhi Hb].
    destruct (_ && ext_le x hi) eqn:Hc.
    + rewrite Z.eqb_refl, Z.sub_diag. simpl. split.
      * intros lo Hlo. apply ext_lt_true, Hprev, Hlo.
      * intros hi' [= <-]. apply ext_le_true.
        apply andb_true_iff in Hc as [_ Hc]. exact Hc.
    + assert (Hlt : ext_lt hi x = true).
      { apply ext_le_false; auto.
        destruct prev as [lo|]; [rewrite (Hprev lo eq_refl) in Hc|]; exact Hc. }
      pose proof (table_level_range rest (Some hi) (l + 1) x) as Hr.
      destruct (IH (Some hi) (l + 1) Hb) as [Hlo Hup].
      { intros lo [= <-]. exact Hlt. }
      set (r := table_level rest (Some hi) (l + 1) x) in *.
      replace (r =? l) with false by (symmetry; apply Z.eqb_neq; lia).
      split.
      * intros lo. destruct (r =? l + 1) eqn:E.
        -- apply Z.eqb_eq in E. rewrite E.
           replace (l + 1 - l - 1) with 0 by lia. simpl.
           intros [= <-]. apply ext_lt_true, Hlt.
        -- apply Z.eqb_neq in E. intros Hl. apply Hlo.
           replace (Z.to_nat (r - l - 1)) with (S (Z.to_nat (r - (l + 1) - 1))) in Hl by lia.
           exact Hl.
      * intros hi'.
        replace (Z.to_nat (r - l)) with (S (Z.to_nat (r - (l + 1)))) by lia.
        apply Hup.
Qed.

Lemma compare_eq_compat x y z :
  Float.compare x y = Some Eq ->
  Float.compare x z = Float.compare y z /\ Float.compare z x = Float.compare z y.
Proof.
  destruct x as [| |p|], y as [| |q|]; simpl; try discriminate;
    try (intros _; split; reflexivity).
  intros [= H]. apply Qeq_alt in H.
  destruct z; simpl; split; try reflexivity; rewrite H; reflexivity.
Qed.

Lemma table_level_compat bounds prev l x y :
  Float.compare x y = Some Eq ->
  table_level bounds prev l x = table_level bounds prev l y.
Proof.
  intros Heq. revert prev l. induction bounds as [|hi rest IH]; intros prev l; simpl.
  - reflexivity.
  - unfold ext_lt, ext_le.
    destruct (compare_eq_compat x y hi Heq) as [-> _].
    destruct prev as [lo|].
    + destruct (compare_eq_compat x y lo Heq) as [_ ->]. rewrite IH. reflexivity.
    + rewrite IH. reflexivity.
Qed.

Lemma bounds_not_nan :
  Forall (fun b => b <> Float.NaN) (Float.value <$> beaufort_upper_bounds).
Proof.
  unfold beaufort_upper_bounds.
  repeat (apply Forall_cons; split; [apply value_not_nan_finite|]).
  apply Forall_nil. exact I.
Qed.

(** The level of a value, read off the table. *)
Lemma beaufort_level_number v x :
  num_val v = Some x ->
  exists l, beaufort_level v = Ret l
    /\ 0 <= l <= 12
    /\ (val_le x (Float.value bf_0_2) -> l = 0)
    /\ (x <> Float.NaN -> in_beaufort_interval x l)
    /\ (forall i ub, beaufort_upper_bounds !! i = Some ub ->
          Float.compare x (Float.value ub) = Some Eq -> l = Z.of_nat i).
Proof.
  intros Hx. eexists. split; [apply beaufort_level_table, Hx|].
  set (bounds := Float.value <$> beaufort_upper_bounds).
  pose proof (table_level_range bounds None 0 x) as Hr.
  change (Z.of_nat (List.length bounds)) with 12 in Hr.
  split; [lia|]. split; [|split].
  - intros Hle. apply ext_le_true in Hle.
    unfold bounds, beaufort_upper_bounds.
    cbn [fmap list_fmap table_level andb]. rewrite Hle. reflexivity.
  - intros Hnan.
    destruct (table_level_interval bounds None 0 x Hnan bounds_not_nan) as [Hlo Hup];
      [discriminate|].
    split; [lia|]. split.
    + intros lo Hpos Hl. apply Hlo.
      replace (_ =? 0) with false by (symmetry; apply Z.eqb_neq; lia).
      rewrite Z.sub_0_r. subst bounds. rewrite list_lookup_fmap, Hl. reflexivity.
    + intros hi Hl. apply Hup.
      rewrite Z.sub_0_r. subst bounds. rewrite list_lookup_fmap, Hl. reflexivity.
  - intros i ub Hi Heq.
    rewrite (table_level_compat _ _ _ _ _ Heq). subst bounds.
    do 12 (destruct i as [|i]; [injection Hi as <-; vm_compute; reflexivity|]).
    discriminate.
Qed.

(** ** The dict a conversion returns *)

Lemma loop_result g keep R (h : heap) (m : dict) r :
  keeps g keep R m -> NoDup (keys m) ->
  r = finish h (build g m []) ->
  exists m', returns_new r h m'
    /\ keys m' = keys (List.filter keep m)
    /\ (forall k v, dict_get k m = Some v ->
          if keep (k, v) then exists v', dict_get k m' = Some v' /\ R k v v'
          else dict_get k m' = None).
Proof.
  intros Hk Hnd ->. exists (stored g m).
  rewrite (build_kept _ _ _ _ Hk Hnd). split; [reflexivity|].
  split; [apply (stored_keys _ _ _ _ Hk)|].
  intros k v Hget. apply (stored_get _ _ _ _ Hk Hnd), dict_get_elem, Hget.
Qed.

Lemma filter_all (m : dict) : List.filter (fun _ => true) m = m.
Proof. induction m as [|a m IH]; simpl; [|rewrite IH]; reflexivity. Qed.

Lemma wind_round_keeps c (m : dict) :
  NoDup (keys m) ->
  (forall k v, dict_get k m = Some v -> k <> "deg" -> exists f, as_float v = Ret f) ->
  keeps (wind_round c) (fun _ => true)
    (fun k v v' => if String.eqb k "deg" then v' = v
                   else exists f, as_float v = Ret f /\ v' = VFloat (Float.mul f c)) m.
Proof.
  intros Hnd Hnum k v Hin. unfold wind_round. simpl.
  destruct (String.eqb_spec k "deg") as [->|Hne]; simpl; [eauto|].
  destruct (Hnum k v (dict_get_item _ _ _ Hnd Hin) Hne) as [f Hf].
  rewrite py_mul_float, Hf. simpl. eauto.
Qed.

Lemma wind_scaled c (h : heap) (m : dict) r :
  NoDup (keys m) ->
  (forall k v, dict_get k m = Some v -> k <> "deg" -> exists f, as_float v = Ret f) ->
  r = finish h (build (wind_round c) m []) ->
  exists m', returns_new r h m' /\ scaled_by c m m'.
Proof.
  intros Hnd Hnum Hr.
  destruct (loop_result _ _ _ h m r (wind_round_keeps c m Hnd Hnum) Hnd Hr)
    as (m' & Hnew & Hkeys & Hget).
  exists m'. split; [exact Hnew|]. rewrite filter_all in Hkeys.
  split; [exact Hkeys|]. split.
  - intros k v Hk Hne. destruct (Hget k v Hk) as (v' & Hv' & HR).
    destruct (String.eqb_spec k "deg"); [congruence|].
    destruct HR as (f & Hf & ->). eauto.
  - intros v Hk. destruct (Hget "deg" v Hk) as (v' & Hv' & HR).
    simpl in HR. congruence.
Qed.



Lemma py_truediv_hpa v :
  py_truediv v (VFloat HPA_FOR_ONE_INHG)
  = let* f := as_float v in Ret (VFloat (Float.div f HPA_FOR_ONE_INHG)).
Proof. destruct v; reflexivity. Qed.




Lemma dict_get_key k (m : dict) : k ∈ keys m -> exists v, dict_get k m = Some v.
Proof.
  induction m as [|[k' v'] m IH]; simpl.
  - intros H. inversion H.
  - rewrite elem_of_cons. destruct (String.eqb_spec k k'); [eauto|].
    intros [?|?]; [congruence|auto].
Qed.

Lemma beaufort_result (h : heap) (m : dict) r :
  NoDup (keys m) ->
  (forall k v, dict_get k m = Some v -> k <> "deg" -> exists x, num_val v = Some x) ->
  r = finish h (build beaufort_round m []) ->
  exists m', returns_new r h m'
    /\ keys m' = keys m
    /\ (forall k v, dict_get k m = Some v -> k <> "deg" ->
          exists x l, num_val v = Some x /\ beaufort_level v = Ret l
                      /\ dict_get k m' = Some (VInt l))
    /\ (forall v, dict_get "deg" m = Some v -> dict_get "deg" m' = Some v).
Proof.
  intros Hnd Hnum Hr.
  assert (Hk : keeps beaufort_round (fun _ => true)
            (fun k v v' => if String.eqb k "deg" then v' = v
                           else exists x l, num_val v = Some x
                                  /\ beaufort_level v = Ret l /\ v' = VInt l) m).
  { intros k v Hin. unfold beaufort_round. simpl.
    destruct (String.eqb_spec k "deg") as [->|Hne]; simpl; [eauto|].
    destruct (Hnum k v (dict_get_item _ _ _ Hnd Hin) Hne) as [x Hx].
    destruct (beaufort_level_number v x Hx) as (l & Hl & _).
    rewrite Hl. simpl. eauto 7. }
  destruct (loop_result _ _ _ h m r Hk Hnd Hr) as (m' & Hnew & Hkeys & Hget).
  exists m'. split; [exact Hnew|]. rewrite filter_all in Hkeys.
  split; [exact Hkeys|]. split.
  - intros k v Hkv Hne. destruct (Hget k v Hkv) as (v' & Hv' & HR).
    destruct (String.eqb_spec k "deg"); [congruence|].
    destruct HR as (x & l & Hx & Hl & ->). eauto 6.
  - intros v Hkv. destruct (Hget "deg" v Hkv) as (v' & Hv' & HR).
    simpl in HR. congruence.
Qed.

(** C1. The Beaufort conversion returns a dict with the keys of [d]; every
    value under a key other than ['deg'] is replaced by the level of the
    interval of the table that holds it, a value equal to an upper bound
    getting the level of that bound, and the value under ['deg'] is copied
    as it is.  The values to convert are ints or floats other than NaN. *)
Theorem beaufort_levels (h : heap) (d : loc) (m : dict) :
  h !! d = Some m ->
  NoDup (keys m) ->
  (forall k v, dict_get k m = Some v -> k <> "deg" -> ordered_number v) ->
  exists m', returns_new (metric_wind_dict_to_beaufort d h) h m'
    /\ keys m' = keys m
    /\ (forall k v, dict_get k m = Some v -> k <> "deg" ->
          exists x l, num_val v = Some x
            /\ dict_get k m' = Some (VInt l)
            /\ in_beaufort_interval x l
            /\ (forall i ub, beaufort_upper_bounds !! i = Some ub ->
                  Float.compare x (Float.value ub) = Some Eq -> l = Z.of_nat i))
    /\ (forall v, dict_get "deg" m = Some v -> dict_get "deg" m' = Some v).
Proof.
  intros Hd Hnd Hnum.
  assert (Hnum' : forall k v, dict_get k m = Some v -> k <> "deg" ->
            exists x, num_val v = Some x).
  { intros k v Hkv Hne. destruct (Hnum k v Hkv Hne) as (x & Hx & _). eauto. }
  destruct (beaufort_result h m _ Hnd Hnum' (metric_wind_dict_to_beaufort_unfold h d m Hd))
    as (m' & Hnew & Hkeys & Hget & Hdeg).
  exists m'. split; [exact Hnew|]. split; [exact Hkeys|]. split; [|exact Hdeg].
  intros k v Hkv Hne.
  destruct (Hget k v Hkv Hne) as (x & l & Hx & Hl & Hres).
  destruct (Hnum k v Hkv Hne) as (x' & Hx' & Hnan).
  assert (x' = x) as -> by congruence.
  destruct (beaufort_level_number v x Hx) as (l' & Hl' & _ & _ & Hint & Hbound).
  assert (l' = l) as -> by congruence.
  exists x, l. auto.
Qed.

Lemma beaufort_levels_witness :
  let m := [("speed", VFloat bf_0_2); ("deg", VInt 90)] in
  exists m', returns_new (metric_wind_dict_to_beaufort 0%nat [m]) [m] m'
    /\ keys m' = keys m
    /\ (forall k v, dict_get k m = Some v -> k <> "deg" ->
          exists x l, num_val v = Some x
            /\ dict_get k m' = Some (VInt l)
            /\ in_beaufort_interval x l
            /\ (forall i ub, beaufort_upper_bounds !! i = Some ub ->
                  Float.compare x (Float.value ub) = Some Eq -> l = Z.of_nat i))
    /\ (forall v, dict_get "deg" m = Some v -> dict_get "deg" m' = Some v).
Proof.
  intros m. apply (beaufort_levels [m] 0%nat m eq_refl).
  - apply (bool_decide_unpack _). vm_compute. exact I.
  - intros k v. unfold m. simpl.
    destruct (String.eqb k "speed").
    + intros [= <-] _. eexists. split; [reflexivity|discriminate].
    + destruct (String.eqb_spec k "deg"); [congruence|discriminate].
Defined.

Lemma zero_le_first_bound : val_le (Float.Fin 0) (Float.value bf_0_2).
Proof. left. vm_compute. reflexivity. Qed.

(** C9. Every value the Beaufort conversion produces under a key other
    than ['deg'] is an integer from 0 to 12; a speed of at most 0.2, and so
    any negative speed, gets level 0 and raises no error.  The values to
    convert are ints or floats. *)
Theorem beaufort_range (h : heap) (d : loc) (m : dict) :
  h !! d = Some m ->
  NoDup (keys m) ->
  (forall k v, dict_get k m = Some v -> k <> "deg" -> exists x, num_val v = Some x) ->
  exists m', returns_new (metric_wind_dict_to_beaufort d h) h m'
    /\ (forall k v', dict_get k m' = Some v' -> k <> "deg" ->
          exists l, v' = VInt l /\ 0 <= l <= 12)
    /\ (forall k v x, dict_get k m = Some v -> k <> "deg" ->
          num_val v = Some x -> val_le x (Float.value bf_0_2) ->
          dict_get k m' = Some (VInt 0))
    /\ (forall k v, dict_get k m = Some v -> k <> "deg" -> negative v ->
          dict_get k m' = Some (VInt 0)).
Proof.
  intros Hd Hnd Hnum.
  destruct (beaufort_result h m _ Hnd Hnum (metric_wind_dict_to_beaufort_unfold h d m Hd))
    as (m' & Hnew & Hkeys & Hget & Hdeg).
  assert (Hlow : forall k v x, dict_get k m = Some v -> k <> "deg" ->
            num_val v = Some x -> val_le x (Float.value bf_0_2) ->
            dict_get k m' = Some (VInt 0)).
  { intros k v x Hkv Hne Hx Hle.
    destruct (Hget k v Hkv Hne) as (x' & l & Hx' & Hl & Hres).
    destruct (beaufort_level_number v x Hx) as (l' & Hl' & _ & Hzero & _).
    rewrite Hres. f_equal. f_equal. rewrite <- (Hzero Hle). congruence. }
  exists m'. split; [exact Hnew|]. split; [|split; [exact Hlow|]].
  - intros k v' Hkv' Hne.
    destruct (dict_get_key k m) as [v Hkv].
    { rewrite <- Hkeys. eapply elem_keys, dict_get_elem, Hkv'. }
    destruct (Hget k v Hkv Hne) as (x & l & Hx & Hl & Hres).
    destruct (beaufort_level_number v x Hx) as (l' & Hl' & Hrange & _).
    exists l. split; [congruence|]. replace l with l' by congruence. exact Hrange.
  - intros k v Hkv Hne (x & Hx & Hneg).
    apply (Hlow k v x Hkv Hne Hx).
    apply val_lt_le, (val_lt_le_trans _ _ _ Hneg zero_le_first_bound).
Qed.

Lemma beaufort_range_witness :
  let m := [("speed", VInt (-3)); ("gust", VFloat S754_nan)] in
  exists m', returns_new (metric_wind_dict_to_beaufort 0%nat [m]) [m] m'
    /\ (forall k v', dict_get k m' = Some v' -> k <> "deg" ->
          exists l, v' = VInt l /\ 0 <= l <= 12)
    /\ (forall k v x, dict_get k m = Some v -> k <> "deg" ->
          num_val v = Some x -> val_le x (Float.value bf_0_2) ->
          dict_get k m' = Some (VInt 0))
    /\ (forall k v, dict_get k m = Some v -> k <> "deg" -> negative v ->
          dict_get k m' = Some (VInt 0)).
Proof.
  intros m. apply (beaufort_range [m] 0%nat m eq_refl).
  - apply (bool_decide_unpack _). vm_compute. exact I.
  - intros k v. unfold m. simpl.
    destruct (String.eqb k "speed"); [intros [= <-] _; eexists; reflexivity|].
    destruct (String.eqb k "gust"); [intros [= <-] _; eexists; reflexivity|].
    discriminate.
Defined.

(** ** Converting a dict of temperatures *)

Lemma comprehension_build f (m : dict) (acc : dict) :
  NoDup (keys m) ->
  build (comprehension_round f m) (keys m) acc = build (temperature_round f) m acc.
Proof.
  intros Hnd. apply build_fmap. intros [k v] Hin.
  unfold comprehension_round, temperature_round. simpl.
  rewrite (dict_get_item _ _ _ Hnd Hin). reflexivity.
Qed.

Lemma temperature_result f (h : heap) (m : dict) r :
  NoDup (keys m) ->
  (forall k v, dict_get k m = Some v -> exists v', f v = Ret v') ->
  r = finish h (build (comprehension_round f m) (keys m) []) ->
  exists m', returns_new r h m' /\ converted_by f m m'.
Proof.
  intros Hnd Hconv Hr. rewrite comprehension_build in Hr by exact Hnd.
  assert (Hk : keeps (temperature_round f) (fun _ => true)
                 (fun _ v v' => f v = Ret v') m).
  { intros k v Hin. unfold temperature_round. simpl.
    destruct (Hconv k v (dict_get_item _ _ _ Hnd Hin)) as [v' Hv'].
    rewrite Hv'. simpl. eauto. }
  destruct (loop_result _ _ _ h m r Hk Hnd Hr) as (m' & Hnew & Hkeys & Hget).
  exists m'. split; [exact Hnew|]. rewrite filter_all in Hkeys.
  split; [exact Hkeys|].
  intros k v Hkv. destruct (Hget k v Hkv) as (v' & Hv' & HR). eauto.
Qed.

Lemma lookup_lt_length (h : heap) (d : loc) (m : dict) :
  h !! d = Some m -> d <> List.length h.
Proof. intros H. apply lookup_lt_Some in H. lia. Qed.

(** C4. With ['kelvin'] the function returns the dict it was given, the
    same object; with ['celsius'] and ['fahrenheit'] it returns a new dict
    with the keys of [d] and each value replaced by what
    [kelvin_to_celsius] or [kelvin_to_fahrenheit] returns on it. *)
Theorem kelvin_dict_conversions (h : heap) (d : loc) (m : dict) :
  h !! d = Some m ->
  NoDup (keys m) ->
  kelvin_dict_to d "kelvin" h = (Ret d, h)
  /\ d <> List.length h
  /\ ((forall k v, dict_get k m = Some v -> exists v', kelvin_to_celsius v = Ret v') ->
      exists m', returns_new (kelvin_dict_to d "celsius" h) h m'
                 /\ converted_by kelvin_to_celsius m m')
  /\ ((forall k v, dict_get k m = Some v -> exists v', kelvin_to_fahrenheit v = Ret v') ->
      exists m', returns_new (kelvin_dict_to d "fahrenheit" h) h m'
                 /\ converted_by kelvin_to_fahrenheit m m').
Proof.
  intros Hd Hnd. split; [reflexivity|]. split; [apply (lookup_lt_length _ _ _ Hd)|].
  split; intros Hconv; apply temperature_result; auto;
    rewrite (kelvin_dict_to_unfold _ _ _ Hd); reflexivity.
Qed.

Lemma kelvin_dict_conversions_witness :
  let m := [("temp", VInt 300); ("temp_min", VFloat KELVIN_OFFSET)] in
  kelvin_dict_to 0%nat "kelvin" [m] = (Ret 0%nat, [m])
  /\ exists m', returns_new (kelvin_dict_to 0%nat "celsius" [m]) [m] m'
                /\ converted_by kelvin_to_celsius m m'.
Proof.
  intros m.
  assert (Hnd : NoDup (keys m)) by (apply (bool_decide_unpack _); vm_compute; exact I).
  destruct (kelvin_dict_conversions [m] 0%nat m eq_refl Hnd) as (Hk & _ & Hc & _).
  split; [exact Hk|]. apply Hc.
  intros k v. unfold m. simpl.
  destruct (String.eqb k "temp"); [intros [= <-]; eexists; reflexivity|].
  destruct (String.eqb k "temp_min"); [intros [= <-]; eexists; reflexivity|].
  discriminate.
Defined.


Lemma negative_raises f v :
  f = kelvin_to_celsius \/ f = kelvin_to_fahrenheit ->
  negative v -> f v = Raise (ValueError negative_temperature_message).
Proof.
  intros Hf Hneg. apply py_lt_zero_negative in Hneg.
  destruct Hf as [-> | ->];
    rewrite ?kelvin_to_celsius_unfold, ?kelvin_to_fahrenheit_unfold, Hneg;
    reflexivity.
Qed.

Lemma scalar_raise_kinds f v e :
  f = kelvin_to_celsius \/ f = kelvin_to_fahrenheit ->
  f v = Raise e ->
  e = ValueError negative_temperature_message \/ e = TypeError \/ e = OverflowError.
Proof.
  intros Hf.
  assert (Hconv : forall g : float -> pyval,
            (let* kf := as_float v in Ret (g kf)) = Raise e ->
            e = TypeError \/ e = OverflowError).
  { intros g. destruct v; simpl; try (intros [= <-]; auto); try discriminate.
    destruct (Float.is_finite _); simpl; [discriminate|intros [= <-]; auto]. }
  destruct Hf as [-> | ->];
    rewrite ?kelvin_to_celsius_unfold, ?kelvin_to_fahrenheit_unfold;
    (destruct (py_lt_cases v) as [[-> _]|[[-> _]|[-> _]]]; simpl;
     [intros [= <-]; auto | intros H; right; eapply Hconv, H | intros [= <-]; auto]).
Qed.

Lemma build_none {A : Type} (g : A -> decision) (l : list A) (acc : dict) :
  (build g l acc).1 = None -> forall a, a ∈ l -> exists o, g a = Ret o.
Proof.
  revert acc. induction l as [|a l IH]; intros acc Hb b Hin; [inversion Hin|].
  simpl in Hb. destruct (g a) as [o|e] eqn:Ha; [|discriminate].
  apply elem_of_cons in Hin as [->|Hin]; [eauto|].
  destruct o as [[k x]|]; eapply IH; eauto.
Qed.

Lemma finish_raise (h : heap) (r : option exn * dict) (e : exn) :
  r.1 = Some e -> exists g, finish h r = (Raise e, h ++ [g]).
Proof. destruct r as [o acc]. simpl. intros ->. exists acc. reflexivity. Qed.

Lemma temperature_unfold (h : heap) (d : loc) (m : dict) u f :
  h !! d = Some m -> NoDup (keys m) ->
  u = "celsius" /\ f = kelvin_to_celsius \/ u = "fahrenheit" /\ f = kelvin_to_fahrenheit ->
  kelvin_dict_to d u h = finish h (build (temperature_round f) m []).
Proof.
  intros Hd Hnd Hu. rewrite (kelvin_dict_to_unfold _ _ _ Hd).
  destruct Hu as [[-> ->]|[-> ->]]; simpl; apply f_equal, comprehension_build, Hnd.
Qed.




(** ** The unit selectors *)

Lemma visibility_round_raise c a e :
  visibility_round c a = Raise e -> e = TypeError \/ e = OverflowError.
Proof.
  destruct a as [k v]. unfold visibility_round. simpl.
  destruct v as [|z|f]; simpl; try discriminate.
  destruct (Float.is_finite _); simpl; [discriminate|intros [= <-]; auto].
Qed.

Lemma finish_fst (h : heap) (r : option exn * dict) (e : exn) (h' : heap) :
  finish h r = (Raise e, h') -> r.1 = Some e.
Proof. destruct r as [[e'|] acc]; simpl; intros [= <- _]; reflexivity. Qed.

Lemma valid_temperature_unit_no_unit_error (h : heap) (d : loc) (m : dict) u h' :
  h !! d = Some m ->
  u = "kelvin" \/ u = "celsius" \/ u = "fahrenheit" ->
  kelvin_dict_to d u h <> (Raise (ValueError invalid_temperature_unit_message), h').
Proof.
  intros Hd Hu Hr. rewrite (kelvin_dict_to_unfold _ _ _ Hd) in Hr.
  assert (Hround : forall f key,
            f = kelvin_to_celsius \/ f = kelvin_to_fahrenheit ->
            comprehension_round f m key
            <> Raise (ValueError invalid_temperature_unit_message)).
  { intros f key Hf. unfold comprehension_round.
    destruct (dict_get key m) as [v|]; [|discriminate].
    destruct (f v) as [v'|e] eqn:Hv; simpl; [discriminate|].
    destruct (scalar_raise_kinds f v e Hf Hv) as [-> |[-> | ->]]; discriminate. }
  destruct Hu as [-> |[-> | ->]]; simpl in Hr; [discriminate| |];
    apply finish_fst, build_error in Hr as (key & _ & Hkey);
    apply (Hround _ key) in Hkey; auto.
Qed.

(** C5, as the code has it.  [kelvin_dict_to] raises the invalid-unit error
    exactly when the unit is none of ['kelvin'], ['celsius'],
    ['fahrenheit'], and leaves the heap as it was; [visibility_dict_to]
    raises an invalid-argument error exactly when the unit is none of
    ['miles'], ['kms'], and returns no dict. *)
Theorem unit_selector_errors (h : heap) (d : loc) (m : dict) (u : string) :
  h !! d = Some m ->
  ((exists h', kelvin_dict_to d u h
               = (Raise (ValueError invalid_temperature_unit_message), h'))
   <-> u <> "kelvin" /\ u <> "celsius" /\ u <> "fahrenheit")
  /\ (u <> "kelvin" /\ u <> "celsius" /\ u <> "fahrenheit" ->
      kelvin_dict_to d u h = (Raise (ValueError invalid_temperature_unit_message), h))
  /\ ((exists msg h', visibility_dict_to d u h = (Raise (ValueError msg), h'))
      <-> u <> "miles" /\ u <> "kms")
  /\ (u <> "miles" /\ u <> "kms" ->
      visibility_dict_to d u h
      = (Raise (ValueError invalid_visibility_unit_message), h ++ [[]])).
Proof.
  intros Hd.
  assert (Hk : u <> "kelvin" /\ u <> "celsius" /\ u <> "fahrenheit" ->
          kelvin_dict_to d u h = (Raise (ValueError invalid_temperature_unit_message), h)).
  { intros (H1 & H2 & H3). unfold kelvin_dict_to.
    destruct (String.eqb_spec u "kelvin"); [congruence|].
    destruct (String.eqb_spec u "celsius"); [congruence|].
    destruct (String.eqb_spec u "fahrenheit"); [congruence|]. reflexivity. }
  assert (Hv : u <> "miles" /\ u <> "kms" ->
          visibility_dict_to d u h
          = (Raise (ValueError invalid_visibility_unit_message), h ++ [[]])).
  { intros (H1 & H2). rewrite (visibility_dict_to_unfold _ _ _ Hd).
    destruct (String.eqb_spec u "miles"); [congruence|].
    destruct (String.eqb_spec u "kms"); [congruence|]. reflexivity. }
  split; [|split; [exact Hk|split; [|exact Hv]]].
  - split; [|eauto]. intros [h' Hr].
    destruct (String.eqb_spec u "kelvin") as [->|H1].
    { destruct (valid_temperature_unit_no_unit_error h d m "kelvin" h' Hd); auto. }
    destruct (String.eqb_spec u "celsius") as [->|H2].
    { destruct (valid_temperature_unit_no_unit_error h d m "celsius" h' Hd); auto. }
    destruct (String.eqb_spec u "fahrenheit") as [->|H3].
    { destruct (valid_temperature_unit_no_unit_error h d m "fahrenheit" h' Hd); auto. }
    auto.
  - split; [|eauto]. intros (msg & h' & Hr).
    rewrite (visibility_dict_to_unfold _ _ _ Hd) in Hr.
    destruct (String.eqb_spec u "miles") as [->|H1].
    { apply finish_fst, build_error in Hr as (a & _ & Ha).
      apply visibility_round_raise in Ha as [|]; discriminate. }
    destruct (String.eqb_spec u "kms") as [->|H2].
    { apply finish_fst, build_error in Hr as (a & _ & Ha).
      apply visibility_round_raise in Ha as [|]; discriminate. }
    auto.
Qed.

Lemma unit_selector_errors_witness :
  let m := [("visibility", VInt 10000)] in
  kelvin_dict_to 0%nat "bogus" [m]
    = (Raise (ValueError invalid_temperature_unit_message), [m])
  /\ visibility_dict_to 0%nat "bogus" [m]
    = (Raise (ValueError invalid_visibility_unit_message), [m] ++ [[]]).
Proof.
  intros m.
  destruct (unit_selector_errors [m] 0%nat m "bogus" eq_refl) as (_ & Hk & _ & Hv).
  split; [apply Hk|apply Hv]; repeat split; discriminate.
Defined.

(** The claim C5 as it is worded fails: with a valid unit, a negative value
    makes [kelvin_dict_to] raise an invalid-argument error all the same. *)
Lemma unit_selector_errors_counterexample :
  ~ (forall (h : heap) (d : loc) (m : dict) (u : string),
       h !! d = Some m ->
       ((exists msg h', kelvin_dict_to d u h = (Raise (ValueError msg), h'))
        <-> u <> "kelvin" /\ u <> "celsius" /\ u <> "fahrenheit")).
Proof.
  intros H.
  destruct (H [[("temp", VInt (-1))]] 0%nat [("temp", VInt (-1))] "celsius" eq_refl)
    as [Hraise _].
  destruct Hraise as (_ & Hc & _); [|congruence].
  eexists _, _. vm_compute. reflexivity.
Qed.

(** ** Purity *)

Lemma call_describe (c : conversion) (h : heap) (d : loc) (m : dict) :
  h !! d = Some m -> call c d h = realize (describe c m) h d.
Proof.
  intros Hd. destruct c as [u| | | | | |u]; simpl.
  - rewrite (kelvin_dict_to_unfold _ _ _ Hd).
    repeat (destruct (String.eqb u _); [reflexivity|]). reflexivity.
  - apply metric_wind_dict_to_imperial_unfold, Hd.
  - apply metric_wind_dict_to_km_h_unfold, Hd.
  - apply metric_wind_dict_to_knots_unfold, Hd.
  - apply metric_wind_dict_to_beaufort_unfold, Hd.
  - apply metric_pressure_dict_to_inhg_unfold, Hd.
  - rewrite (visibility_dict_to_unfold _ _ _ Hd).
    repeat (destruct (String.eqb u _); [reflexivity|]). reflexivity.
Qed.

Lemma realize_keeps (s : shape) (h : heap) (d : loc) (l : loc) (x : dict) :
  h !! l = Some x -> (realize s h d).2 !! l = Some x.
Proof. destruct s; simpl; auto. apply lookup_old. Qed.

Lemma realize_observe (s : shape) (h : heap) (d : loc) (m : dict) :
  h !! d = Some m ->
  observe (realize s h d) =
    match s with
    | Same => Ret (Some m)
    | Fresh (None, acc) => Ret (Some acc)
    | Fresh (Some e, _) | Fail e => Raise e
    end.
Proof.
  intros Hd. destruct s as [|[[e|] acc]|e]; unfold observe; simpl; try reflexivity.
  - rewrite Hd. reflexivity.
  - rewrite lookup_last. reflexivity.
Qed.

(** C8. A conversion leaves every dict of the heap, its argument among
    them, as it was, and what it returns or raises depends on the contents
    of its argument alone: two calls on equal contents are seen to end the
    same way, also when the second follows the first. *)
Theorem conversions_pure (c : conversion) (h : heap) (d : loc) (m : dict) :
  h !! d = Some m ->
  (forall l x, h !! l = Some x -> (call c d h).2 !! l = Some x)
  /\ (forall h2 d2, h2 !! d2 = Some m ->
        observe (call c d2 h2) = observe (call c d h))
  /\ observe (call c d (call c d h).2) = observe (call c d h).
Proof.
  intros Hd.
  assert (Hkeep : forall l x, h !! l = Some x -> (call c d h).2 !! l = Some x).
  { intros l x Hl. rewrite (call_describe c h d m Hd). apply realize_keeps, Hl. }
  assert (Hsame : forall h2 d2, h2 !! d2 = Some m ->
            observe (call c d2 h2) = observe (call c d h)).
  { intros h2 d2 Hd2.
    rewrite (call_describe c h d m Hd), (call_describe c h2 d2 m Hd2).
    rewrite (realize_observe _ _ _ _ Hd), (realize_observe _ _ _ _ Hd2). reflexivity. }
  split; [exact Hkeep|]. split; [exact Hsame|].
  apply Hsame, Hkeep, Hd.
Qed.

Lemma conversions_pure_witness :
  let m := [("speed", VInt 4); ("deg", VInt 270)] in
  observe (call MetricWindDictToKnots 0%nat (call MetricWindDictToKnots 0%nat [m]).2)
  = observe (call MetricWindDictToKnots 0%nat [m]).
Proof.
  intros m.
  exact (proj2 (proj2 (conversions_pure MetricWindDictToKnots [m] 0%nat m eq_refl))).
Defined.

(** ** The constants and some calls, evaluated *)

(** Each constant is the float nearest to its decimal literal. *)
Lemma constants_are_literals :
  KELVIN_OFFSET = Float.literal 27315 2
  /\ FAHRENHEIT_OFFSET = Float.literal 320 1
  /\ FAHRENHEIT_DEGREE_SCALE = Float.literal 18 1
  /\ MILES_PER_HOUR_FOR_ONE_METER_PER_SEC = Float.literal 223694 5
  /\ KM_PER_HOUR_FOR_ONE_METER_PER_SEC = Float.literal 36 1
  /\ KNOTS_FOR_ONE_METER_PER_SEC = Float.literal 194384 5
  /\ HPA_FOR_ONE_INHG = Float.literal 338639 4
  /\ MILE_FOR_ONE_METER = Float.literal 621371 9
  /\ KMS_FOR_ONE_METER = Float.literal 1 3.
Proof. vm_compute. repeat split. Qed.

Lemma messages_as_in_source :
  negative_temperature_message
    = __name__ +:+ ": negative temperature values not allowed"
  /\ String.length invalid_temperature_unit_message = 77%nat.
Proof. split; reflexivity. Qed.

Example celsius_of_300 :
  kelvin_to_celsius (VInt 300) = Ret (VFloat (Float.literal 2685 2)).
Proof. vm_compute. reflexivity. Qed.

Example fahrenheit_of_300 :
  kelvin_to_fahrenheit (VInt 300) = Ret (VFloat (Float.literal 8033 2)).
Proof. vm_compute. reflexivity. Qed.

Example celsius_of_minus_one :
  kelvin_to_celsius (VFloat (Float.of_Z (-1)))
  = Raise (ValueError negative_temperature_message).
Proof. vm_compute. reflexivity. Qed.

Example celsius_of_negative_zero :
  kelvin_to_celsius (VFloat (S754_zero true))
  = Ret (VFloat (Float.sub (S754_zero false) (Float.literal 27315 2))).
Proof. vm_compute. reflexivity. Qed.

Example celsius_of_none : kelvin_to_celsius VNone = Raise TypeError.
Proof. reflexivity. Qed.

Example celsius_of_huge_int : kelvin_to_celsius (VInt (10 ^ 400)) = Raise OverflowError.
Proof. vm_compute. reflexivity. Qed.

Example kelvin_dict_to_celsius_300 :
  observe (kelvin_dict_to 0%nat "celsius" [[("temp", VInt 300)]])
  = Ret (Some [("temp", VFloat (Float.literal 2685 2))]).
Proof. vm_compute. reflexivity. Qed.

Example kelvin_dict_to_kelvin_300 :
  kelvin_dict_to 0%nat "kelvin" [[("temp", VInt 300)]]
  = (Ret 0%nat, [[("temp", VInt 300)]]).
Proof. reflexivity. Qed.

Example beaufort_of_boundary :
  observe (metric_wind_dict_to_beaufort 0%nat
             [[("speed", VFloat (Float.literal 2 1)); ("deg", VInt 90)]])
  = Ret (Some [("speed", VInt 0); ("deg", VInt 90)]).
Proof. vm_compute. reflexivity. Qed.

Example beaufort_above_boundary :
  observe (metric_wind_dict_to_beaufort 0%nat
             [[("speed", VFloat (Float.literal 21 2)); ("gust", VInt 100)]])
  = Ret (Some [("speed", VInt 1); ("gust", VInt 12)]).
Proof. vm_compute. reflexivity. Qed.

(** NaN passes every test of the chain and ends in the last branch. *)
Example beaufort_of_nan : beaufort_level (VFloat S754_nan) = Ret 12.
Proof. vm_compute. reflexivity. Qed.

Example imperial_of_one :
  observe (metric_wind_dict_to_imperial 0%nat [[("speed", VInt 1); ("deg", VInt 10)]])
  = Ret (Some [("speed", VFloat (Float.literal 223694 5)); ("deg", VInt 10)]).
Proof. vm_compute. reflexivity. Qed.

Example inhg_of_standard_pressure :
  observe (metric_pressure_dict_to_inhg 0%nat
             [[("press", VFloat (Float.literal 101325 2)); ("sea_level", VNone)]])
  = Ret (Some [("press", VFloat (Float.literal 2992 2))]).
Proof. vm_compute. reflexivity. Qed.

Example kms_of_10000 :
  observe (visibility_dict_to 0%nat "kms" [[("visibility", VInt 10000)]])
  = Ret (Some [("visibility", VFloat (Float.of_Z 10))]).
Proof. vm_compute. reflexivity. Qed.

Example visibility_bogus_unit :
  observe (visibility_dict_to 0%nat "bogus" [[("visibility", VInt 10000)]])
  = Raise (ValueError invalid_visibility_unit_message).
Proof. vm_compute. reflexivity. Qed.

(** * Further properties *)

(** ** The Beaufort level of whole numbers, and its growth *)

Lemma int_bound z c q n :
  Float.value c = Float.Fin q ->
  (inject_Z n < q)%Q -> (q < inject_Z (n + 1))%Q ->
  ext_le (Float.Fin (inject_Z z)) (Float.value c) = (z <=? n)
  /\ ext_lt (Float.value c) (Float.Fin (inject_Z z)) = negb (z <=? n).
Proof.
  intros -> Hlo Hhi. unfold ext_le, ext_lt. cbn [Float.compare].
  destruct (Z.leb_spec z n) as [Hle|Hgt]; cbn [negb].
  - assert (Hlt : (inject_Z z < q)%Q).
    { eapply Qle_lt_trans; [|exact Hlo]. rewrite <- Zle_Qle. exact Hle. }
    assert (H1 : (inject_Z z ?= q)%Q = Lt) by (apply Qlt_alt; exact Hlt).
    assert (H2 : (q ?= inject_Z z)%Q = Gt) by (apply Qgt_alt; exact Hlt).
    rewrite H1, H2. auto.
  - assert (Hlt : (q < inject_Z z)%Q).
    { eapply Qlt_le_trans; [exact Hhi|]. rewrite <- Zle_Qle. lia. }
    assert (H1 : (inject_Z z ?= q)%Q = Gt) by (apply Qgt_alt; exact Hlt).
    assert (H2 : (q ?= inject_Z z)%Q = Lt) by (apply Qlt_alt; exact Hlt).
    rewrite H1, H2. auto.
Qed.

Ltac int_bound z c n :=
  let H := fresh in
  pose proof (int_bound z c _ n eq_refl
                ltac:(vm_compute; reflexivity) ltac:(vm_compute; reflexivity)) as H;
  let H1 := fresh in let H2 := fresh in
  destruct H as [H1 H2]; rewrite ?H1, ?H2; clear H1 H2.

Lemma beaufort_level_of_int (z : Z) :
  beaufort_level (VInt z) = Ret (beaufort_of_int z).
Proof.
  rewrite (beaufort_level_table (VInt z) (Float.Fin (inject_Z z)) eq_refl).
  f_equal. unfold beaufort_upper_bounds.
  cbn [fmap list_fmap table_level].
  int_bound z bf_0_2 0. int_bound z bf_1_5 1. int_bound z bf_3_3 3.
  int_bound z bf_5_4 5. int_bound z bf_7_9 7. int_bound z bf_10_7 10.
  int_bound z bf_13_8 13. int_bound z bf_17_1 17. int_bound z bf_20_7 20.
  int_bound z bf_24_4 24. int_bound z bf_28_4 28. int_bound z bf_32_6 32.
  unfold beaufort_of_int.
  repeat (match goal with
          | |- context [?a <=? ?b] => destruct (Z.leb_spec a b)
          end; try lia).
  all: reflexivity.
Qed.

(** X1. On whole numbers of meters/second the Beaufort conversion reads
    the level off whole thresholds: 0 up to 0, 1 at 1, 2 up to 3, 3 up to
    5, 4 up to 7, 5 up to 10, 6 up to 13, 7 up to 17, 8 up to 20, 9 up to
    24, 10 up to 28, 11 up to 32 and 12 above; no int is too large for
    it. *)
Theorem beaufort_of_whole_speeds (h : heap) (d : loc) (m : dict) :
  h !! d = Some m ->
  NoDup (keys m) ->
  (forall k v, dict_get k m = Some v -> k <> "deg" -> exists z, v = VInt z) ->
  exists m', returns_new (metric_wind_dict_to_beaufort d h) h m'
    /\ (forall k z, dict_get k m = Some (VInt z) -> k <> "deg" ->
          dict_get k m' = Some (VInt (beaufort_of_int z))).
Proof.
  intros Hd Hnd Hint.
  assert (Hnum : forall k v, dict_get k m = Some v -> k <> "deg" ->
            exists x, num_val v = Some x).
  { intros k v Hkv Hne. destruct (Hint k v Hkv Hne) as [z ->]. eexists. reflexivity. }
  destruct (beaufort_result h m _ Hnd Hnum (metric_wind_dict_to_beaufort_unfold h d m Hd))
    as (m' & Hnew & _ & Hget & _).
  exists m'. split; [exact Hnew|].
  intros k z Hkv Hne. destruct (Hget k _ Hkv Hne) as (x & l & _ & Hl & ->).
  rewrite beaufort_level_of_int in Hl. congruence.
Qed.

Lemma beaufort_of_whole_speeds_witness :
  let m := [("speed", VInt 9); ("gust", VInt (10 ^ 400)); ("deg", VNone)] in
  exists m', returns_new (metric_wind_dict_to_beaufort 0%nat [m]) [m] m'
    /\ (forall k z, dict_get k m = Some (VInt z) -> k <> "deg" ->
          dict_get k m' = Some (VInt (beaufort_of_int z))).
Proof.
  intros m. apply (beaufort_of_whole_speeds [m] 0%nat m eq_refl).
  - apply (bool_decide_unpack _). vm_compute. exact I.
  - intros k v. unfold m. cbn [dict_get].
    destruct (String.eqb k "speed"); [intros [= <-] _; eexists; reflexivity|].
    destruct (String.eqb k "gust"); [intros [= <-] _; eexists; reflexivity|].
    destruct (String.eqb_spec k "deg"); [congruence|discriminate].
Defined.

Lemma val_le_trans x y z : val_le x y -> val_le y z -> val_le x z.
Proof.
  intros [Hxy|Hxy] Hyz.
  - apply val_lt_le, (val_lt_le_trans _ _ _ Hxy Hyz).
  - destruct (compare_eq_compat x y z Hxy) as [Hc _].
    unfold val_le. rewrite Hc. exact Hyz.
Qed.

Lemma val_lt_irrefl x : ~ val_lt x x.
Proof.
  unfold val_lt. destruct x; simpl; try discriminate.
  intros [= H]. pose proof (Qeq_refl q) as He. apply Qeq_alt in He. congruence.
Qed.

Lemma val_le_not_nan x y : val_le x y -> x <> Float.NaN /\ y <> Float.NaN.
Proof. unfold val_le. destruct x, y; simpl; intros [|]; split; congruence. Qed.

(** The upper bounds of the table grow. *)
Lemma bounds_sorted i j a b :
  (i <= j)%nat ->
  beaufort_upper_bounds !! i = Some a -> beaufort_upper_bounds !! j = Some b ->
  val_le (Float.value a) (Float.value b).
Proof.
  intros Hij Hi Hj.
  assert (Hbound : (j < 12)%nat) by (apply lookup_lt_Some in Hj; exact Hj).
  assert (Hall : forallb (fun i => forallb (fun j =>
            match beaufort_upper_bounds !! i, beaufort_upper_bounds !! j with
            | Some a, Some b => ext_le (Float.value a) (Float.value b)
            | _, _ => false
            end) (seq i (12 - i))) (seq 0 12) = true) by (vm_compute; reflexivity).
  rewrite forallb_forall in Hall. specialize (Hall i).
  rewrite forallb_forall in Hall.
  specialize (Hall ltac:(apply in_seq; lia) j ltac:(apply in_seq; lia)).
  rewrite Hi, Hj in Hall. apply ext_le_true, Hall.
Qed.

Lemma beaufort_level_grows v w x y :
  num_val v = Some x -> num_val w = Some y -> val_le x y ->
  exists l l', beaufort_level v = Ret l /\ beaufort_level w = Ret l' /\ l <= l'.
Proof.
  intros Hx Hy Hle. destruct (val_le_not_nan _ _ Hle) as [Hnx Hny].
  destruct (beaufort_level_number v x Hx) as (l & Hl & Hr & _ & Hin & _).
  destruct (beaufort_level_number w y Hy) as (l' & Hl' & Hr' & _ & Hin' & _).
  exists l, l'. split; [exact Hl|]. split; [exact Hl'|].
  destruct (Z.le_gt_cases l l') as [|Hgt]; [assumption|exfalso].
  destruct (Hin Hnx) as (_ & Hlo & _). destruct (Hin' Hny) as (_ & _ & Hhi).
  destruct (lookup_lt_is_Some_2 beaufort_upper_bounds (Z.to_nat (l - 1))) as [lo Flo].
  { change (List.length beaufort_upper_bounds) with 12%nat. lia. }
  destruct (lookup_lt_is_Some_2 beaufort_upper_bounds (Z.to_nat l')) as [hi Fhi].
  { change (List.length beaufort_upper_bounds) with 12%nat. lia. }
  specialize (Hlo lo ltac:(lia) Flo). specialize (Hhi hi Fhi).
  assert (Hs : val_le (Float.value hi) (Float.value lo)).
  { apply (bounds_sorted (Z.to_nat l') (Z.to_nat (l - 1))); auto. lia. }
  apply (val_lt_irrefl (Float.value lo)).
  apply (val_lt_le_trans _ _ _ Hlo).
  apply (val_le_trans _ _ _ Hle), (val_le_trans _ _ _ Hhi), Hs.
Qed.

(** X2. The Beaufort level grows with the speed: of two values of a dict
    under keys other than ['deg'], the one that is not above the other does
    not get the higher level. *)
Theorem beaufort_levels_grow (h : heap) (d : loc) (m : dict) :
  h !! d = Some m ->
  NoDup (keys m) ->
  (forall k v, dict_get k m = Some v -> k <> "deg" -> exists x, num_val v = Some x) ->
  exists m', returns_new (metric_wind_dict_to_beaufort d h) h m'
    /\ (forall k1 v1 x1 k2 v2 x2,
          dict_get k1 m = Some v1 -> k1 <> "deg" -> num_val v1 = Some x1 ->
          dict_get k2 m = Some v2 -> k2 <> "deg" -> num_val v2 = Some x2 ->
          val_le x1 x2 ->
          exists l1 l2, dict_get k1 m' = Some (VInt l1)
                        /\ dict_get k2 m' = Some (VInt l2) /\ l1 <= l2).
Proof.
  intros Hd Hnd Hnum.
  destruct (beaufort_result h m _ Hnd Hnum (metric_wind_dict_to_beaufort_unfold h d m Hd))
    as (m' & Hnew & _ & Hget & _).
  exists m'. split; [exact Hnew|].
  intros k1 v1 x1 k2 v2 x2 H1 N1 X1 H2 N2 X2 Hle.
  destruct (Hget k1 v1 H1 N1) as (_ & l1 & _ & Hl1 & R1).
  destruct (Hget k2 v2 H2 N2) as (_ & l2 & _ & Hl2 & R2).
  destruct (beaufort_level_grows v1 v2 x1 x2 X1 X2 Hle) as (a & b & Ha & Hb & Hab).
  exists l1, l2. split; [exact R1|]. split; [exact R2|]. congruence.
Qed.

Lemma beaufort_levels_grow_witness :
  let m := [("speed", VInt 9); ("gust", VFloat bf_13_8)] in
  exists m', returns_new (metric_wind_dict_to_beaufort 0%nat [m]) [m] m'
    /\ (forall k1 v1 x1 k2 v2 x2,
          dict_get k1 m = Some v1 -> k1 <> "deg" -> num_val v1 = Some x1 ->
          dict_get k2 m = Some v2 -> k2 <> "deg" -> num_val v2 = Some x2 ->
          val_le x1 x2 ->
          exists l1 l2, dict_get k1 m' = Some (VInt l1)
                        /\ dict_get k2 m' = Some (VInt l2) /\ l1 <= l2).
Proof.
  intros m. apply (beaufort_levels_grow [m] 0%nat m eq_refl).
  - apply (bool_decide_unpack _). vm_compute. exact I.
  - intros k v. unfold m. cbn [dict_get].
    destruct (String.eqb k "speed"); [intros [= <-] _; eexists; reflexivity|].
    destruct (String.eqb k "gust"); [intros [= <-] _; eexists; reflexivity|].
    discriminate.
Defined.

(** ** What makes a conversion raise *)

Lemma as_float_cases v :
  (exists f, as_float v = Ret f)
  \/ (v = VNone /\ as_float v = Raise TypeError)
  \/ (too_large v /\ as_float v = Raise OverflowError).
Proof.
  destruct v as [|z|f]; simpl; [right; left; auto| |left; eauto].
  destruct (Float.is_finite (Float.of_Z z)) eqn:E; [left; eauto|].
  right; right. split; [exists z; auto|reflexivity].
Qed.

Lemma too_large_not_float v f : too_large v -> as_float v <> Ret f.
Proof. intros (z & -> & Hz). simpl. rewrite Hz. discriminate. Qed.

Lemma too_large_not_none v : too_large v -> is_none v = false.
Proof. intros (z & -> & _). reflexivity. Qed.

Section Raises.
Context {A : Type} (g : A -> decision) (h : heap) (l : list A).

Lemma loop_raises :
  raises (finish h (build g l [])) <-> exists a e, a ∈ l /\ g a = Raise e.
Proof.
  split.
  - intros (e & h' & Hr). apply finish_fst, build_error in Hr as (a & Ha & Hg). eauto.
  - intros (a & e & Ha & Hg).
    destruct (build g l []) as [[e'|] acc] eqn:Hb.
    + exists e', (h ++ [acc]). reflexivity.
    + destruct (build_none g l [] ltac:(rewrite Hb; reflexivity) a Ha) as [o Ho].
      congruence.
Qed.

Lemma loop_raises_only (E : exn) :
  (forall a e, a ∈ l -> g a = Raise e -> e = E) ->
  raises_only E (finish h (build g l [])).
Proof.
  intros Hg e h' Hr. apply finish_fst, build_error in Hr as (a & Ha & Hga). eauto.
Qed.

Lemma loop_raises_first (pre post : list A) (a : A) (e : exn) :
  l = pre ++ a :: post ->
  (forall b, b ∈ pre -> exists o, g b = Ret o) ->
  g a = Raise e ->
  exists acc, finish h (build g l []) = (Raise e, h ++ [acc]).
Proof. intros -> Hpre Ha. apply finish_raise, build_raise; auto. Qed.
End Raises.

Lemma wind_round_raise c k v e :
  wind_round c (k, v) = Raise e <->
  k <> "deg" /\ (v = VNone /\ e = TypeError \/ too_large v /\ e = OverflowError).
Proof.
  unfold wind_round. simpl.
  destruct (String.eqb_spec k "deg") as [->|Hne]; simpl.
  - split; [discriminate|]. intros [H _]. congruence.
  - rewrite py_mul_float.
    destruct (as_float_cases v) as [[f Hf]|[[-> Hf]|[Hl Hf]]]; rewrite Hf; simpl.
    + split; [discriminate|]. intros [_ [[-> _]|[Hl _]]]; [discriminate|].
      destruct (too_large_not_float _ f Hl Hf).
    + split; [intros [= <-]; auto|]. intros [_ [[_ ->]|[(z & Hz & _) _]]]; congruence.
    + split; [intros [= <-]; auto|].
      intros [_ [[-> _]|[_ ->]]]; [destruct Hl as (z & Hz & _); discriminate|reflexivity].
Qed.

Lemma beaufort_round_raise k v e :
  beaufort_round (k, v) = Raise e <-> k <> "deg" /\ v = VNone /\ e = TypeError.
Proof.
  unfold beaufort_round. simpl.
  destruct (String.eqb_spec k "deg") as [->|Hne]; simpl.
  - split; [discriminate|]. intros [H _]. congruence.
  - destruct v as [|z|f].
    + split; [intros [= <-]; auto|]. intros (_ & _ & ->). reflexivity.
    + destruct (beaufort_level_number (VInt z) _ eq_refl) as (l & -> & _). simpl.
      split; [discriminate|]. intros (_ & H & _). discriminate.
    + destruct (beaufort_level_number (VFloat f) _ eq_refl) as (l & -> & _). simpl.
      split; [discriminate|]. intros (_ & H & _). discriminate.
Qed.

Lemma rounding_raise (g : string * pyval -> decision) (op : float -> float) k v e :
  (forall f, v <> VNone -> as_float v = Ret f ->
     g (k, v) = Ret (Some (k, VFloat (Float.round2 (op f))))) ->
  (v = VNone -> g (k, v) = Ret None) ->
  (forall e', as_float v = Raise e' -> v <> VNone -> g (k, v) = Raise e') ->
  g (k, v) = Raise e <-> too_large v /\ e = OverflowError.
Proof.
  intros Hok Hnone Hbad.
  destruct (as_float_cases v) as [[f Hf]|[[-> Hf]|[Hl Hf]]].
  - destruct v as [|z|f0].
    + discriminate.
    + rewrite (Hok f) by (auto; discriminate). split; [discriminate|].
      intros [Hl _]. destruct (too_large_not_float _ f Hl Hf).
    + rewrite (Hok f) by (auto; discriminate). split; [discriminate|].
      intros [(z & Hz & _) _]. discriminate.
  - rewrite Hnone by reflexivity. split; [discriminate|].
    intros [(z & Hz & _) _]. discriminate.
  - assert (Hv : v <> VNone) by (destruct Hl as (z & -> & _); discriminate).
    rewrite (Hbad _ Hf Hv). split; [intros [= <-]; auto|]. intros [_ ->]. reflexivity.
Qed.

Lemma pressure_round_raise k v e :
  pressure_round (k, v) = Raise e <-> too_large v /\ e = OverflowError.
Proof.
  apply (rounding_raise _ (fun f => Float.div f HPA_FOR_ONE_INHG));
    unfold pressure_round; simpl.
  - intros f Hv Hf. destruct v; [congruence| |]; cbn [is_none];
      rewrite py_truediv_hpa, Hf; reflexivity.
  - intros ->. reflexivity.
  - intros e' Hf Hv. destruct v; [congruence| |]; cbn [is_none];
      rewrite py_truediv_hpa, Hf; reflexivity.
Qed.

Lemma visibility_round_raise_iff c k v e :
  visibility_round c (k, v) = Raise e <-> too_large v /\ e = OverflowError.
Proof.
  apply (rounding_raise _ (fun f => Float.mul f c));
    unfold visibility_round; simpl.
  - intros f Hv Hf. destruct v; [congruence| |]; cbn [is_none];
      rewrite py_mul_float, Hf; reflexivity.
  - intros ->. reflexivity.
  - intros e' Hf Hv. destruct v; [congruence| |]; cbn [is_none];
      rewrite py_mul_float, Hf; reflexivity.
Qed.

Lemma fails_on_loop (g : string * pyval -> decision) bad E (h : heap) (m : dict) :
  (forall k v e, g (k, v) = Raise e <-> bad k v /\ e = E) ->
  fails_on bad E m (finish h (build g m [])).
Proof.
  intros Hg. split.
  - rewrite loop_raises. split.
    + intros ([k v] & e & Hin & He). apply Hg in He as [Hb _]. eauto.
    + intros (k & v & Hin & Hb). exists (k, v), E. split; [exact Hin|].
      apply Hg. auto.
  - apply loop_raises_only. intros [k v] e _ He. apply Hg in He as [_ ->]. reflexivity.
Qed.

(** X3. The pressure conversion and the visibility conversion to miles or
    kilometers raise exactly when some value of the dict is an int too
    large for a float, and then raise OverflowError: a [None] value never
    makes them raise. *)
Theorem rounding_conversions_fail_on_overflow (h : heap) (d : loc) (m : dict) :
  h !! d = Some m ->
  fails_on (fun _ v => too_large v) OverflowError m (metric_pressure_dict_to_inhg d h)
  /\ fails_on (fun _ v => too_large v) OverflowError m (visibility_dict_to d "miles" h)
  /\ fails_on (fun _ v => too_large v) OverflowError m (visibility_dict_to d "kms" h).
Proof.
  intros Hd.
  rewrite (metric_pressure_dict_to_inhg_unfold _ _ _ Hd),
          !(visibility_dict_to_unfold _ _ _ Hd).
  cbn [String.eqb Ascii.eqb Bool.eqb].
  split; [|split]; apply fails_on_loop; intros k v e.
  - apply pressure_round_raise.
  - apply visibility_round_raise_iff.
  - apply visibility_round_raise_iff.
Qed.

Lemma rounding_conversions_fail_on_overflow_witness :
  let m := [("press", VNone); ("sea_level", VInt (10 ^ 400))] in
  fails_on (fun _ v => too_large v) OverflowError m
    (metric_pressure_dict_to_inhg 0%nat [m]).
Proof.
  intros m. exact (proj1 (rounding_conversions_fail_on_overflow [m] 0%nat m eq_refl)).
Defined.

(** X4. The Beaufort conversion raises exactly when the value under some
    key other than ['deg'] is [None], and then raises TypeError: no number,
    however large, makes it raise. *)
Theorem beaufort_fails_on_none (h : heap) (d : loc) (m : dict) :
  h !! d = Some m ->
  fails_on (fun k v => k <> "deg" /\ v = VNone) TypeError m
    (metric_wind_dict_to_beaufort d h).
Proof.
  intros Hd. rewrite (metric_wind_dict_to_beaufort_unfold _ _ _ Hd).
  apply fails_on_loop. intros k v e. rewrite beaufort_round_raise. tauto.
Qed.

Lemma beaufort_fails_on_none_witness :
  let m := [("deg", VNone); ("speed", VInt (10 ^ 400))] in
  fails_on (fun k v => k <> "deg" /\ v = VNone) TypeError m
    (metric_wind_dict_to_beaufort 0%nat [m]).
Proof.
  intros m. exact (beaufort_fails_on_none [m] 0%nat m eq_refl).
Defined.

Lemma scaling_call (c : conversion) (f : float) (h : heap) (d : loc) (m : dict) :
  h !! d = Some m -> scaling_factor c = Some f ->
  call c d h = finish h (build (wind_round f) m []).
Proof.
  intros Hd Hc. rewrite (call_describe c h d m Hd).
  destruct c; try discriminate; injection Hc as <-; reflexivity.
Qed.

(** X5. The imperial, km/h and knots conversions raise exactly when the
    value under some key other than ['deg'] is [None] or an int too large
    for a float; the first such value in the order of the dict decides the
    exception: TypeError for [None], OverflowError for the int. *)
Theorem scaling_conversions_fail (c : conversion) (f : float)
    (h : heap) (d : loc) (m : dict) :
  h !! d = Some m ->
  scaling_factor c = Some f ->
  (raises (call c d h) <->
     exists k v, (k, v) ∈ m /\ k <> "deg" /\ (v = VNone \/ too_large v))
  /\ (forall pre k v post,
        m = pre ++ (k, v) :: post ->
        (forall b, b ∈ pre -> b.1 = "deg" \/ exists x, as_float b.2 = Ret x) ->
        k <> "deg" ->
        (v = VNone -> exists acc, call c d h = (Raise TypeError, h ++ [acc]))
        /\ (too_large v -> exists acc, call c d h = (Raise OverflowError, h ++ [acc]))).
Proof.
  intros Hd Hc. rewrite (scaling_call c f h d m Hd Hc). split.
  - rewrite loop_raises. split.
    + intros ([k v] & e & Hin & He). apply wind_round_raise in He as [Hne He].
      exists k, v. split; [exact Hin|]. split; [exact Hne|].
      destruct He as [[-> _]|[Hl _]]; auto.
    + intros (k & v & Hin & Hne & Hv).
      destruct Hv as [->|Hl].
      * exists (k, VNone), TypeError. split; [exact Hin|]. apply wind_round_raise. auto.
      * exists (k, v), OverflowError. split; [exact Hin|]. apply wind_round_raise. auto.
  - intros pre k v post Hm Hpre Hne.
    assert (Hret : forall b, b ∈ pre -> exists o, wind_round f b = Ret o).
    { intros [kb vb] Hb. unfold wind_round. simpl.
      destruct (Hpre _ Hb) as [Hdeg|[x Hx]]; simpl in *.
      - subst kb. simpl. eauto.
      - destruct (negb _); [|eauto]. rewrite py_mul_float, Hx. simpl. eauto. }
    split; intros Hv; apply (loop_raises_first _ _ _ pre post (k, v) _ Hm Hret);
      apply wind_round_raise; auto.
Qed.

Lemma scaling_conversions_fail_witness :
  let m := [("deg", VNone); ("speed", VInt 3); ("gust", VNone); ("x", VInt (10 ^ 400))] in
  exists acc, call MetricWindDictToKnots 0%nat [m] = (Raise TypeError, [m] ++ [acc]).
Proof.
  intros m.
  destruct (scaling_conversions_fail MetricWindDictToKnots _ [m] 0%nat m eq_refl eq_refl)
    as [_ H].
  refine (proj1 (H [("deg", VNone); ("speed", VInt 3)] "gust" VNone
                   [("x", VInt (10 ^ 400))] eq_refl _ _) eq_refl).
  - intros b Hb. apply elem_of_cons in Hb as [->|Hb]; [left; reflexivity|].
    apply list_elem_of_singleton in Hb as ->. right. eexists. reflexivity.
  - discriminate.
Defined.

(** ** The dict returned and the dict given *)

Lemma setitem_live (h : heap) (l : loc) (m : dict) key x :
  h !! l = Some m ->
  dict_setitem l key x h = (Ret tt, <[l := dict_set key x m]> h).
Proof. intros Hl. unfold dict_setitem. rewrite Hl. reflexivity. Qed.

(** X6. What [kelvin_dict_to] returns with ['kelvin'] is the dict it was
    given, so an item set in the result is set in the argument; every
    other call that returns, returns a dict that did not exist before, and
    an item set in it leaves the argument as it was. *)
Theorem result_aliasing (h : heap) (d : loc) (m : dict) (key : string) (x : pyval) :
  h !! d = Some m ->
  (let! r := kelvin_dict_to d "kelvin" in dict_setitem r key x) h
    = (Ret tt, <[d := dict_set key x m]> h)
  /\ <[d := dict_set key x m]> h !! d = Some (dict_set key x m)
  /\ (forall c r h1,
        c <> KelvinDictTo "kelvin" ->
        call c d h = (Ret r, h1) ->
        r <> d /\ h !! r = None
        /\ exists m' h2, h1 !! r = Some m'
             /\ dict_setitem r key x h1 = (Ret tt, h2)
             /\ h2 !! r = Some (dict_set key x m')
             /\ h2 !! d = Some m).
Proof.
  intros Hd. split; [|split].
  - unfold bindM, kelvin_dict_to. simpl. apply setitem_live, Hd.
  - apply list_lookup_insert_eq. apply lookup_lt_Some in Hd. exact Hd.
  - intros c r h1 Hc Hcall. rewrite (call_describe c h d m Hd) in Hcall.
    assert (Hfresh : exists r0, describe c m = Fresh r0).
    { destruct c as [u| | | | | |u]; simpl in *; eauto.
      - destruct (String.eqb_spec u "kelvin") as [->|_]; [congruence|].
        repeat (destruct (String.eqb u _); eauto). discriminate.
      - repeat (destruct (String.eqb u _); eauto). }
    destruct Hfresh as [[[e|] acc] Hs]; rewrite Hs in Hcall; simpl in Hcall;
      [discriminate|]. injection Hcall as <- <-.
    split; [symmetry; apply (lookup_lt_length _ _ _ Hd)|].
    split; [apply lookup_ge_None; lia|].
    exists acc, (h ++ [dict_set key x acc]).
    split; [apply lookup_last|].
    split; [rewrite (setitem_live _ _ acc) by apply lookup_last;
            rewrite insert_last; reflexivity|].
    split; [apply lookup_last|apply lookup_old, Hd].
Qed.

Lemma result_aliasing_witness :
  let m := [("temp", VInt 300)] in
  (let! r := kelvin_dict_to 0%nat "kelvin" in dict_setitem r "temp" VNone) [m]
    = (Ret tt, <[0%nat := dict_set "temp" VNone m]> [m]).
Proof.
  intros m. exact (proj1 (result_aliasing [m] 0%nat m "temp" VNone eq_refl)).
Defined.

(** ** One conversion after another *)

Lemma scaled_values_float c (m m' : dict) :
  scaled_by c m m' ->
  forall k v, dict_get k m' = Some v -> k <> "deg" -> exists f, as_float v = Ret f.
Proof.
  intros (Hkeys & Hval & _) k v Hkv Hne.
  destruct (dict_get_key k m) as [v0 Hv0].
  { rewrite <- Hkeys. eapply elem_keys, dict_get_elem, Hkv. }
  destruct (Hval k v0 Hv0 Hne) as (f & _ & Hf).
  rewrite Hkv in Hf. injection Hf as ->. eexists. reflexivity.
Qed.

(** X7. A scaling conversion applied to the dict another one returned
    scales again: the values under keys other than ['deg'] are multiplied by
    the first constant and then by the second, the value under ['deg'] is
    still the one given, and the dict given and the dict in between are as
    they were. *)
Theorem scaling_twice (c1 c2 : conversion) (f1 f2 : float)
    (h : heap) (d : loc) (m : dict) :
  h !! d = Some m ->
  NoDup (keys m) ->
  (forall k v, dict_get k m = Some v -> k <> "deg" -> exists x, as_float v = Ret x) ->
  scaling_factor c1 = Some f1 ->
  scaling_factor c2 = Some f2 ->
  exists r1 h1 m1 r2 h2 m2,
    call c1 d h = (Ret r1, h1) /\ h1 !! r1 = Some m1
    /\ call c2 r1 h1 = (Ret r2, h2) /\ h2 !! r2 = Some m2
    /\ h2 !! d = Some m /\ h2 !! r1 = Some m1
    /\ keys m2 = keys m
    /\ (forall k v, dict_get k m = Some v -> k <> "deg" ->
          exists x, as_float v = Ret x
            /\ dict_get k m2 = Some (VFloat (Float.mul (Float.mul x f1) f2)))
    /\ (forall v, dict_get "deg" m = Some v -> dict_get "deg" m2 = Some v).
Proof.
  intros Hd Hnd Hnum Hc1 Hc2.
  destruct (wind_scaled f1 h m _ Hnd Hnum (scaling_call c1 f1 h d m Hd Hc1))
    as (m1 & Hnew1 & Hs1).
  pose proof Hs1 as (Hk1 & Hv1 & Hdeg1).
  assert (Hr1 : (h ++ [m1]) !! List.length h = Some m1) by apply lookup_last.
  assert (Hnd1 : NoDup (keys m1)) by (rewrite Hk1; exact Hnd).
  destruct (wind_scaled f2 (h ++ [m1]) m1 _ Hnd1 (scaled_values_float f1 m m1 Hs1)
              (scaling_call c2 f2 _ _ m1 Hr1 Hc2))
    as (m2 & Hnew2 & Hk2 & Hv2 & Hdeg2).
  exists (List.length h), (h ++ [m1]), m1,
         (List.length (h ++ [m1])), ((h ++ [m1]) ++ [m2]), m2.
  split; [exact Hnew1|]. split; [exact Hr1|].
  split; [exact Hnew2|]. split; [apply lookup_last|].
  split; [apply lookup_old, lookup_old, Hd|]. split; [apply lookup_old, Hr1|].
  split; [congruence|]. split.
  - intros k v Hkv Hne. destruct (Hv1 k v Hkv Hne) as (x & Hx & Hm1).
    destruct (Hv2 k _ Hm1 Hne) as (y & Hy & Hm2). injection Hy as <-. eauto.
  - intros v Hkv. apply Hdeg2, Hdeg1, Hkv.
Qed.

Lemma scaling_twice_witness :
  let m := [("speed", VInt 4); ("deg", VInt 270)] in
  exists r1 h1 m1 r2 h2 m2,
    call MetricWindDictToKmH 0%nat [m] = (Ret r1, h1) /\ h1 !! r1 = Some m1
    /\ call MetricWindDictToKnots r1 h1 = (Ret r2, h2) /\ h2 !! r2 = Some m2
    /\ h2 !! 0%nat = Some m /\ h2 !! r1 = Some m1
    /\ keys m2 = keys m
    /\ (forall k v, dict_get k m = Some v -> k <> "deg" ->
          exists x, as_float v = Ret x
            /\ dict_get k m2
               = Some (VFloat (Float.mul (Float.mul x KM_PER_HOUR_FOR_ONE_METER_PER_SEC)
                                         KNOTS_FOR_ONE_METER_PER_SEC)))
    /\ (forall v, dict_get "deg" m = Some v -> dict_get "deg" m2 = Some v).
Proof.
  intros m.
  apply (scaling_twice MetricWindDictToKmH MetricWindDictToKnots _ _ [m] 0%nat m eq_refl);
    try reflexivity.
  - apply (bool_decide_unpack _). vm_compute. exact I.
  - intros k v. unfold m. cbn [dict_get].
    destruct (String.eqb k "speed"); [intros [= <-] _; eexists; reflexivity|].
    destruct (String.eqb_spec k "deg"); [congruence|discriminate].
Defined.

(** ** The empty dict *)

(** X8. On an empty dict every conversion that knows its unit returns a
    new empty dict, and [kelvin_dict_to] with ['kelvin'] the dict given. *)
Theorem empty_dict (c : conversion) (h : heap) (d : loc) :
  h !! d = Some [] ->
  (loops c = true -> call c d h = (Ret (List.length h), h ++ [[]]))
  /\ (c = KelvinDictTo "kelvin" -> call c d h = (Ret d, h)).
Proof.
  intros Hd. rewrite (call_describe c h d [] Hd). split.
  - destruct c as [u| | | | | |u]; simpl; try reflexivity.
    + destruct (String.eqb_spec u "kelvin") as [->|_]; [discriminate|].
      destruct (String.eqb u "celsius"); [reflexivity|].
      destruct (String.eqb u "fahrenheit"); [reflexivity|discriminate].
    + destruct (String.eqb u "miles"); [reflexivity|].
      destruct (String.eqb u "kms"); [reflexivity|discriminate].
  - intros ->. reflexivity.
Qed.

Lemma empty_dict_witness :
  call (VisibilityDictTo "kms") 0%nat [[]] = (Ret 1%nat, [[]; []]).
Proof.
  exact (proj1 (empty_dict (VisibilityDictTo "kms") [[]] 0%nat eq_refl) eq_refl).
Defined.

(** ** Whole readings: the float path against exact arithmetic *)

Lemma range_check (f : Z -> bool) (n : Z) :
  forallb (fun k => f (Z.of_nat k)) (seq 0 (Z.to_nat (n + 1))) = true ->
  forall z, 0 <= z <= n -> f z = true.
Proof.
  intros Hall z Hz. rewrite forallb_forall in Hall.
  specialize (Hall (Z.to_nat z)). rewrite Z2Nat.id in Hall by lia.
  apply Hall, in_seq. lia.
Qed.

(** X9. On a whole number of kelvins from 0 to 2000 the float arithmetic
    loses nothing: [kelvin_to_celsius] returns the float nearest to the
    decimal [k - 273.15], and [kelvin_to_fahrenheit] the float nearest to
    the decimal [1.8 k - 459.67]. *)
Theorem whole_kelvins_exact (z : Z) :
  0 <= z <= 2000 ->
  kelvin_to_celsius (VInt z) = Ret (VFloat (nearest_float (100 * z - 27315) 100))
  /\ kelvin_to_fahrenheit (VInt z) = Ret (VFloat (nearest_float (180 * z - 45967) 100)).
Proof.
  intros Hz. split.
  - apply (bool_decide_eq_true_1 _).
    revert z Hz. apply (range_check celsius_exact 2000). vm_compute. reflexivity.
  - apply (bool_decide_eq_true_1 _).
    revert z Hz. apply (range_check fahrenheit_exact 2000). vm_compute. reflexivity.
Qed.

Lemma whole_kelvins_exact_witness :
  kelvin_to_celsius (VInt 0) = Ret (VFloat (nearest_float (-27315) 100))
  /\ kelvin_to_fahrenheit (VInt 0) = Ret (VFloat (nearest_float (-45967) 100)).
Proof. apply (whole_kelvins_exact 0). lia. Defined.

Lemma pressure_round_key k v x :
  pressure_round ("", v) = Ret (Some ("", x)) ->
  pressure_round (k, v) = Ret (Some (k, x)).
Proof.
  unfold pressure_round. simpl. destruct (is_none v); [discriminate|].
  destruct (py_truediv _ _) as [q|]; simpl; [|discriminate].
  destruct (py_round q ROUNDED_TO); simpl; congruence.
Qed.

Lemma visibility_round_key c k v x :
  visibility_round c ("", v) = Ret (Some ("", x)) ->
  visibility_round c (k, v) = Ret (Some (k, x)).
Proof.
  unfold visibility_round. simpl. destruct (is_none v); [discriminate|].
  destruct (py_mul _ _) as [q|]; simpl; [|discriminate].
  destruct (py_round q ROUNDED_TO); simpl; congruence.
Qed.

Lemma whole_result (g : string * pyval -> decision) (F : Z -> float)
    (ok : Z -> Prop) (h : heap) (m : dict) r :
  NoDup (keys m) ->
  (forall k v, dict_get k m = Some v -> v = VNone \/ exists z, v = VInt z /\ ok z) ->
  (forall k, g (k, VNone) = Ret None) ->
  (forall k z, ok z -> g (k, VInt z) = Ret (Some (k, VFloat (F z)))) ->
  r = finish h (build g m []) ->
  exists m', returns_new r h m'
    /\ keys m' = keys (non_null m)
    /\ (forall k z, dict_get k m = Some (VInt z) -> dict_get k m' = Some (VFloat (F z))).
Proof.
  intros Hnd Hval Hnone Hint Hr.
  assert (Hk : keeps g (fun kv => negb (is_none kv.2))
            (fun _ v v' => forall z, v = VInt z -> v' = VFloat (F z)) m).
  { intros k v Hin. simpl.
    destruct (Hval k v (dict_get_item _ _ _ Hnd Hin)) as [->|(z & -> & Hz)]; simpl.
    - apply Hnone.
    - exists (VFloat (F z)). split; [apply Hint, Hz|]. intros z' [= <-]. reflexivity. }
  destruct (loop_result _ _ _ h m r Hk Hnd Hr) as (m' & Hnew & Hkeys & Hget).
  exists m'. split; [exact Hnew|]. split; [exact Hkeys|].
  intros k z Hkv. destruct (Hget k _ Hkv) as (v' & Hv' & HR).
  rewrite (HR z eq_refl) in Hv'. exact Hv'.
Qed.

(** X10. On whole numbers of hectopascals from 0 to 2000 the pressure
    conversion returns what exact arithmetic gives: the float nearest to
    the hundredth nearest to [value / 33.8639]. *)
Theorem whole_hectopascals_exact (h : heap) (d : loc) (m : dict) :
  h !! d = Some m ->
  NoDup (keys m) ->
  (forall k v, dict_get k m = Some v ->
     v = VNone \/ exists z, v = VInt z /\ 0 <= z <= 2000) ->
  exists m', returns_new (metric_pressure_dict_to_inhg d h) h m'
    /\ keys m' = keys (non_null m)
    /\ (forall k z, dict_get k m = Some (VInt z) ->
          dict_get k m' = Some (VFloat (nearest_hundredth (z * 10000) 338639))).
Proof.
  intros Hd Hnd Hval.
  apply (whole_result pressure_round _ (fun z => 0 <= z <= 2000)); auto.
  - intros k z Hz. apply pressure_round_key, (bool_decide_eq_true_1 _).
    revert z Hz. apply (range_check inhg_exact 2000). vm_compute. reflexivity.
  - apply metric_pressure_dict_to_inhg_unfold, Hd.
Qed.

Lemma whole_hectopascals_exact_witness :
  let m := [("press", VInt 1013); ("sea_level", VNone)] in
  exists m', returns_new (metric_pressure_dict_to_inhg 0%nat [m]) [m] m'
    /\ keys m' = keys (non_null m)
    /\ (forall k z, dict_get k m = Some (VInt z) ->
          dict_get k m' = Some (VFloat (nearest_hundredth (z * 10000) 338639))).
Proof.
  intros m. apply (whole_hectopascals_exact [m] 0%nat m eq_refl).
  - apply (bool_decide_unpack _). vm_compute. exact I.
  - intros k v. unfold m. cbn [dict_get].
    destruct (String.eqb k "press");
      [intros [= <-]; right; exists 1013; split; [reflexivity|lia]|].
    destruct (String.eqb k "sea_level"); [intros [= <-]; left; reflexivity|].
    discriminate.
Defined.

(** X11. On whole tens of meters from 0 to 10000 the visibility
    conversion returns what exact arithmetic gives: to miles the float
    nearest to the hundredth nearest to [value * 0.000621371], to
    kilometers the float nearest to the decimal [value / 1000]. *)
Theorem whole_meters_exact (h : heap) (d : loc) (m : dict) :
  h !! d = Some m ->
  NoDup (keys m) ->
  (forall k v, dict_get k m = Some v ->
     v = VNone \/ exists z, v = VInt z /\ 0 <= z <= 10000 /\ z mod 10 = 0) ->
  (exists m', returns_new (visibility_dict_to d "miles" h) h m'
     /\ keys m' = keys (non_null m)
     /\ (forall k z, dict_get k m = Some (VInt z) ->
           dict_get k m'
           = Some (VFloat (nearest_hundredth (z * 621371) 1000000000))))
  /\ (exists m', returns_new (visibility_dict_to d "kms" h) h m'
        /\ keys m' = keys (non_null m)
        /\ (forall k z, dict_get k m = Some (VInt z) ->
              dict_get k m' = Some (VFloat (nearest_float (z / 10) 100)))).
Proof.
  intros Hd Hnd Hval.
  assert (Htens : forall z, 0 <= z <= 10000 /\ z mod 10 = 0 ->
            z = 10 * (z / 10) /\ 0 <= z / 10 <= 1000).
  { intros z [Hz Hmod]. split; [rewrite (Z.div_mod z 10) at 1; lia|].
    split; [apply Z.div_pos|apply Z.div_le_upper_bound]; lia. }
  split.
  - apply (whole_result (visibility_round MILE_FOR_ONE_METER) _
             (fun z => 0 <= z <= 10000 /\ z mod 10 = 0)); auto.
    + intros k z Hz. apply visibility_round_key.
      destruct (Htens z Hz) as [Heq Hq]. rewrite Heq at 1 2.
      apply (bool_decide_eq_true_1 _).
      revert Hq. generalize (z / 10). apply (range_check miles_exact 1000).
      vm_compute. reflexivity.
    + rewrite (visibility_dict_to_unfold _ _ _ Hd). reflexivity.
  - apply (whole_result (visibility_round KMS_FOR_ONE_METER) _
             (fun z => 0 <= z <= 10000 /\ z mod 10 = 0)); auto.
    + intros k z Hz. apply visibility_round_key.
      destruct (Htens z Hz) as [Heq Hq]. rewrite Heq at 1.
      apply (bool_decide_eq_true_1 _).
      revert Hq. generalize (z / 10). apply (range_check kms_exact 1000).
      vm_compute. reflexivity.
    + rewrite (visibility_dict_to_unfold _ _ _ Hd). reflexivity.
Qed.

Lemma whole_meters_exact_witness :
  let m := [("visibility", VInt 10000)] in
  exists m', returns_new (visibility_dict_to 0%nat "kms" [m]) [m] m'
    /\ keys m' = keys (non_null m)
    /\ (forall k z, dict_get k m = Some (VInt z) ->
          dict_get k m' = Some (VFloat (nearest_float (z / 10) 100))).
Proof.
  intros m.
  assert (Hnd : NoDup (keys m)) by (apply (bool_decide_unpack _); vm_compute; exact I).
  refine (proj2 (whole_meters_exact [m] 0%nat m eq_refl Hnd _)).
  intros k v. unfold m. cbn [dict_get].
  destruct (String.eqb k "visibility"); [|discriminate].
  intros [= <-]. right. exists 10000. split; [reflexivity|]. split; [lia|reflexivity].
Defined.

(** ** The type of the values returned *)

Lemma dict_set_elem k0 x0 (acc : dict) k x :
  (k, x) ∈ dict_set k0 x0 acc -> (k, x) = (k0, x0) \/ (k, x) ∈ acc.
Proof.
  induction acc as [|[k1 x1] acc IH]; simpl.
  - intros H. apply list_elem_of_singleton in H. auto.
  - destruct (String.eqb_spec k0 k1) as [->|Hne]; rewrite !elem_of_cons.
    + intros [H|H]; auto.
    + intros [H|H]; [auto|]. destruct (IH H); auto.
Qed.

Lemma build_items {A : Type} (g : A -> decision) (l : list A) (acc acc' : dict) :
  build g l acc = (None, acc') ->
  forall k x, (k, x) ∈ acc' ->
    (k, x) ∈ acc \/ exists a, a ∈ l /\ g a = Ret (Some (k, x)).
Proof.
  revert acc. induction l as [|a l IH]; intros acc Hb k x Hin; simpl in Hb.
  - injection Hb as <-. auto.
  - destruct (g a) as [[[k0 x0]|]|e] eqn:Ha; [| |discriminate].
    + destruct (IH _ Hb k x Hin) as [Hacc|(b & Hb' & Hgb)].
      * destruct (dict_set_elem _ _ _ _ _ Hacc) as [[= -> ->]|Hacc']; [|auto].
        right. exists a. split; [left|exact Ha].
      * right. exists b. split; [right; exact Hb'|exact Hgb].
    + destruct (IH _ Hb k x Hin) as [Hacc|(b & Hb' & Hgb)]; [auto|].
      right. exists b. split; [right; exact Hb'|exact Hgb].
Qed.

Lemma all_items_loop {A : Type} (g : A -> decision) (P : string -> pyval -> Prop)
    (h : heap) (l : list A) :
  (forall a k x, g a = Ret (Some (k, x)) -> P k x) ->
  all_items P (finish h (build g l [])).
Proof.
  intros Hg r h1 m' Hr Hm' k x Hin.
  destruct (build g l []) as [[e|] acc] eqn:Hb; [discriminate|].
  injection Hr as <- <-. rewrite lookup_last in Hm'. injection Hm' as <-.
  destruct (build_items g l [] acc Hb k x Hin) as [Hnil|(a & _ & Ha)].
  - inversion Hnil.
  - eapply Hg, Ha.
Qed.

Lemma all_items_raise (P : string -> pyval -> Prop) e (h : heap) :
  all_items P (Raise e, h).
Proof. intros r h1 m' Hr. discriminate. Qed.

Lemma scalar_returns_float f v x :
  f = kelvin_to_celsius \/ f = kelvin_to_fahrenheit -> f v = Ret x -> is_float x.
Proof.
  intros [-> | ->];
    rewrite ?kelvin_to_celsius_unfold, ?kelvin_to_fahrenheit_unfold;
    (destruct (py_lt v (VInt 0)) as [[|]|]; simpl; try discriminate;
     destruct (as_float v); simpl; try discriminate;
     intros [= <-]; eexists; reflexivity).
Qed.

(** X12. Whatever numbers a dict holds, ints or floats, the values a
    conversion returns are floats: all of them for the temperature,
    pressure and visibility conversions, those under keys other than
    ['deg'] for the three scalings.  The Beaufort conversion returns ints
    under keys other than ['deg']. *)
Theorem result_types (h : heap) (d : loc) (m : dict) :
  h !! d = Some m ->
  (forall c f, scaling_factor c = Some f ->
     all_items (fun k v => k <> "deg" -> is_float v) (call c d h))
  /\ all_items (fun k v => k <> "deg" -> is_int v) (metric_wind_dict_to_beaufort d h)
  /\ all_items (fun _ v => is_float v) (metric_pressure_dict_to_inhg d h)
  /\ (forall u, all_items (fun _ v => is_float v) (visibility_dict_to d u h))
  /\ (forall u, u <> "kelvin" ->
        all_items (fun _ v => is_float v) (kelvin_dict_to d u h)).
Proof.
  intros Hd. split; [|split; [|split; [|split]]].
  - intros c f Hc. rewrite (scaling_call c f h d m Hd Hc).
    apply all_items_loop. intros [k0 v0] k x. unfold wind_round. simpl.
    destruct (String.eqb_spec k0 "deg") as [->|Hne]; simpl.
    + intros [= <- <-] H. congruence.
    + rewrite py_mul_float. destruct (as_float v0); simpl; [|discriminate].
      intros [= <- <-] _. eexists. reflexivity.
  - rewrite (metric_wind_dict_to_beaufort_unfold _ _ _ Hd).
    apply all_items_loop. intros [k0 v0] k x. unfold beaufort_round. simpl.
    destruct (String.eqb_spec k0 "deg") as [->|Hne]; simpl.
    + intros [= <- <-] H. congruence.
    + destruct (beaufort_level v0); simpl; [|discriminate].
      intros [= <- <-] _. eexists. reflexivity.
  - rewrite (metric_pressure_dict_to_inhg_unfold _ _ _ Hd).
    apply all_items_loop. intros [k0 v0] k x. unfold pressure_round. simpl.
    destruct (is_none v0); [discriminate|]. rewrite py_truediv_hpa.
    destruct (as_float v0); simpl; [|discriminate].
    intros [= <- <-]. eexists. reflexivity.
  - intros u. rewrite (visibility_dict_to_unfold _ _ _ Hd).
    assert (Hv : forall c, all_items (fun _ v => is_float v)
                   (finish h (build (visibility_round c) m []))).
    { intros c. apply all_items_loop. intros [k0 v0] k x. unfold visibility_round. simpl.
      destruct (is_none v0); [discriminate|]. rewrite py_mul_float.
      destruct (as_float v0); simpl; [|discriminate].
      intros [= <- <-]. eexists. reflexivity. }
    destruct (String.eqb u "miles"); [apply Hv|].
    destruct (String.eqb u "kms"); [apply Hv|]. apply all_items_raise.
  - intros u Hu. rewrite (kelvin_dict_to_unfold _ _ _ Hd).
    assert (Hv : forall f, f = kelvin_to_celsius \/ f = kelvin_to_fahrenheit ->
              all_items (fun _ v => is_float v)
                (finish h (build (comprehension_round f m) (keys m) []))).
    { intros f Hf. apply all_items_loop. intros k0 k x. unfold comprehension_round.
      destruct (dict_get k0 m) as [v0|]; [|discriminate].
      destruct (f v0) as [x0|] eqn:Hx; simpl; [|discriminate].
      intros [= <- <-]. apply (scalar_returns_float f v0 x0 Hf Hx). }
    destruct (String.eqb_spec u "kelvin"); [congruence|].
    destruct (String.eqb u "celsius"); [apply Hv; auto|].
    destruct (String.eqb u "fahrenheit"); [apply Hv; auto|]. apply all_items_raise.
Qed.

Lemma result_types_witness :
  let m := [("visibility", VInt 10000)] in
  all_items (fun _ v => is_float v) (visibility_dict_to 0%nat "kms" [m]).
Proof.
  intros m.
  destruct (result_types [m] 0%nat m eq_refl) as (_ & _ & _ & H & _).
  apply H.
Defined.

(** ** What makes the temperature conversions raise *)

Lemma scalar_raise_iff f v e :
  f = kelvin_to_celsius \/ f = kelvin_to_fahrenheit ->
  f v = Raise e <->
  (v = VNone /\ e = TypeError)
  \/ (negative v /\ e = ValueError negative_temperature_message)
  \/ (too_large v /\ ~ negative v /\ e = OverflowError).
Proof.
  intros Hf.
  assert (exists g : float -> pyval,
            f v = let* neg := py_lt v (VInt 0) in
                  if neg : bool then Raise (ValueError negative_temperature_message)
                  else let* kf := as_float v in Ret (g kf)) as [g ->].
  { destruct Hf as [-> | ->]; eexists.
    - rewrite kelvin_to_celsius_unfold. reflexivity.
    - rewrite kelvin_to_fahrenheit_unfold. reflexivity. }
  destruct (py_lt_cases v) as [[-> Hn]|[[-> Hn]|[-> ->]]]; simpl.
  - split.
    + intros [= <-]. auto.
    + intros [[-> _]|[[_ ->]|(_ & Hnn & _)]]; [|reflexivity|tauto].
      destruct Hn as (x & Hx & _). discriminate.
  - destruct (as_float_cases v) as [[kf Hkf]|[[-> Hkf]|[Hl Hkf]]]; rewrite Hkf; simpl.
    + split; [discriminate|].
      intros [[-> _]|[[Hneg _]|(Hl & _)]]; [discriminate|tauto|].
      destruct (too_large_not_float _ kf Hl Hkf).
    + split; [intros [= <-]; auto|].
      intros [[_ ->]|[[Hneg _]|((z & Hz & _) & _)]];
        [reflexivity|destruct (Hn Hneg)|discriminate].
    + split; [intros [= <-]; auto|].
      intros [[-> _]|[[Hneg _]|(_ & _ & ->)]]; [|tauto|reflexivity].
      destruct Hl as (z & Hz & _). discriminate.
  - split; [intros [= <-]; auto|].
    intros [[_ ->]|[[(x & Hx & _) _]|((z & Hz & _) & _)]]; [reflexivity| |]; discriminate.
Qed.

(** X13. With ['celsius'] or ['fahrenheit'], [kelvin_dict_to] raises
    exactly when some value of the dict is [None], negative or an int too
    large for a float, and raises nothing but TypeError, the
    invalid-argument error of the negative temperature, or OverflowError;
    the scalar conversions raise the invalid-argument error on a negative
    int however large, since the sign is tested before the subtraction. *)
Theorem temperature_conversions_fail (h : heap) (d : loc) (m : dict) (u : string) :
  h !! d = Some m ->
  NoDup (keys m) ->
  u = "celsius" \/ u = "fahrenheit" ->
  (raises (kelvin_dict_to d u h) <->
     exists k v, (k, v) ∈ m /\ (v = VNone \/ negative v \/ too_large v))
  /\ (forall e h', kelvin_dict_to d u h = (Raise e, h') ->
        e = TypeError \/ e = ValueError negative_temperature_message
        \/ e = OverflowError)
  /\ (forall z, z < 0 ->
        kelvin_to_celsius (VInt z) = Raise (ValueError negative_temperature_message)
        /\ kelvin_to_fahrenheit (VInt z)
           = Raise (ValueError negative_temperature_message)).
Proof.
  intros Hd Hnd Hu.
  assert (exists f, (f = kelvin_to_celsius \/ f = kelvin_to_fahrenheit)
            /\ kelvin_dict_to d u h = finish h (build (temperature_round f) m []))
    as (f & Hf & ->).
  { destruct Hu as [-> | ->]; eexists; (split; [|apply temperature_unfold; eauto]); auto. }
  split; [|split].
  - rewrite loop_raises. split.
    + intros ([k v] & e & Hin & He). exists k, v. split; [exact Hin|].
      unfold temperature_round in He. simpl in He.
      destruct (f v) as [x|e'] eqn:Hv; simpl in He; [discriminate|].
      apply (scalar_raise_iff f v e' Hf) in Hv.
      destruct Hv as [[-> _]|[[Hn _]|(Hl & _)]]; auto.
    + intros (k & v & Hin & Hv).
      assert (exists e, f v = Raise e) as [e He].
      { destruct Hv as [->|[Hn|Hl]].
        - exists TypeError. apply (scalar_raise_iff f _ _ Hf). auto.
        - eexists. apply (scalar_raise_iff f _ _ Hf). right; left. eauto.
        - destruct (f v) as [x|e] eqn:Hfv; [|eauto].
          destruct (as_float_cases v) as [[kf Hkf]|[[-> _]|[_ Hkf]]].
          + destruct (too_large_not_float _ kf Hl Hkf).
          + destruct Hl as (z & Hz & _). discriminate.
          + exfalso. revert Hfv.
            destruct Hf as [-> | ->];
              rewrite ?kelvin_to_celsius_unfold, ?kelvin_to_fahrenheit_unfold, Hkf;
              destruct (py_lt v (VInt 0)) as [[|]|]; simpl; discriminate. }
      exists (k, v), e. split; [exact Hin|].
      unfold temperature_round. simpl. rewrite He. reflexivity.
  - intros e h' Hr. apply finish_fst, build_error in Hr as ([k v] & _ & He).
    unfold temperature_round in He. simpl in He.
    destruct (f v) as [x|e'] eqn:Hv; simpl in He; [discriminate|]. injection He as <-.
    apply (scalar_raise_iff f v e' Hf) in Hv.
    destruct Hv as [[_ ->]|[[_ ->]|(_ & _ & ->)]]; auto.
  - intros z Hz.
    assert (Hneg : negative (VInt z)).
    { exists (Float.Fin (inject_Z z)). split; [reflexivity|].
      unfold val_lt. cbn [Float.compare]. f_equal. apply Qlt_alt.
      change (inject_Z z < inject_Z 0)%Q. rewrite <- Zlt_Qlt. exact Hz. }
    split; apply negative_raises; auto.
Qed.

Lemma temperature_conversions_fail_witness :
  let m := [("temp", VInt 300); ("temp_min", VInt (- 10 ^ 400))] in
  raises (kelvin_dict_to 0%nat "celsius" [m]) <->
    exists k v, (k, v) ∈ m /\ (v = VNone \/ negative v \/ too_large v).
Proof.
  intros m. refine (proj1 (temperature_conversions_fail [m] 0%nat m "celsius" eq_refl _ _)).
  - apply (bool_decide_unpack _). vm_compute. exact I.
  - left. reflexivity.
Defined.

(** X14. The test for a negative temperature lets NaN and the positive
    infinity pass: on a float that is neither finite nor the negative
    infinity both scalar conversions return that float. *)
Theorem non_finite_temperatures (f : float) :
  Float.is_finite f = false ->
  f <> S754_infinity true ->
  kelvin_to_celsius (VFloat f) = Ret (VFloat f)
  /\ kelvin_to_fahrenheit (VFloat f) = Ret (VFloat f).
Proof.
  intros Hf Hneg. destruct f as [s|[|]| |s m e]; try discriminate; try congruence;
    split; vm_compute; reflexivity.
Qed.

Lemma non_finite_temperatures_witness :
  kelvin_to_celsius (VFloat S754_nan) = Ret (VFloat S754_nan)
  /\ kelvin_to_fahrenheit (VFloat S754_nan) = Ret (VFloat S754_nan).
Proof. apply (non_finite_temperatures S754_nan); [reflexivity|discriminate]. Defined.
